(** * DirTree Browser: the directory-listing core

    A shallow embedding of the Electron main process ([listDirectory], the
    subprocess client and entry normaliser) and of the renderer (navigation
    state, history, display order), with the properties of the specification
    stated and proved over it.

    Conventions.
    - A JavaScript [number] that the code only passes along or compares with
      a literal is an integer [Z].
    - A value produced by [JSON.parse] is a [Js.Value]; [JSON.parse] itself,
      [String.prototype.localeCompare], [Number.prototype.toFixed],
      [Date.prototype.toLocaleString] and the resolved executable path belong
      to the runtime and are Section variables.
    - A promise is modelled by its settlement; a handler that runs once per
      event is a function on the state it closes over. *)

From Stdlib Require Import ZArith String Ascii List Lia DecimalString Sorted Permutation.
From stdpp Require Import base option list strings.

Set Warnings "-register-all".
Import ListNotations.

Local Open Scope string_scope.
Local Open Scope Z_scope.

(** ** JavaScript values and completions *)

Module Js.

(** What [JSON.parse] can return, plus [undefined] for absent properties. *)
Inductive Value : Type :=
| Undefined
| Null
| Bool (b : bool)
| Number (n : Z)
| Str (s : string)
| Array (items : list Value)
| Object (fields : list (string * Value)).

(** [new Error(message)]. *)
Record Error : Type := mkError { message : string }.

(** [`${err}`] for an [Error]: the name alone when the message is empty,
    otherwise the name, a colon, the message. *)
Definition toString (e : Error) : string :=
  if String.eqb (message e) "" then "Error" else "Error: " +:+ message e.

(** A settled promise. *)
Inductive Settled (A : Type) : Type :=
| Resolved (value : A)
| Rejected (reason : Error).
Arguments Resolved {A} value.
Arguments Rejected {A} reason.

(** Own property of an object literal; absent keys read as [undefined]. *)
Definition own_property (key : string) (fields : list (string * Value)) : Value :=
  match find (fun kv => String.eqb (fst kv) key) fields with
  | Some kv => snd kv
  | None => Undefined
  end.

(** [v.key] for the keys the program reads ([path], [entries], [name],
    [size], [modified], [is_dir], [is_symlink], [permissions]).  [None] is
    the TypeError raised on [null] and [undefined].  Primitives and arrays
    carry none of these keys as data: the read gives [undefined] (on an
    array [entries] is the inherited iterator method, which like
    [undefined] has no [map]). *)
Definition get (v : Value) (key : string) : option Value :=
  match v with
  | Undefined | Null => None
  | Object fields => Some (own_property key fields)
  | Bool _ | Number _ | Str _ | Array _ => Some Undefined
  end.

(** ToBoolean. *)
Definition truthy (v : Value) : bool :=
  match v with
  | Undefined | Null => false
  | Bool b => b
  | Number n => negb (Z.eqb n 0)
  | Str s => negb (String.eqb s "")
  | Array _ | Object _ => true
  end.

(** [a || b]. *)
Definition or_else (a b : Value) : Value := if truthy a then a else b.

(** [`${n}`] for an integer. *)
Definition show (n : Z) : string := NilZero.string_of_int (Z.to_int n).

End Js.

(** ** Main process (the file with [--format json]) *)

Module Main.

(** [interface RawFileEntry]. *)
Record RawFileEntry : Type := {
  raw_name : string;
  raw_size : Z;
  raw_modified : string;
  is_dir : bool;
  is_symlink : bool;
  raw_permissions : option string;
  file_type : option string
}.

(** [interface RawCliOutput]. *)
Record RawCliOutput : Type := {
  raw_path : string;
  total : Z;
  raw_entries : list RawFileEntry
}.

Inductive EntryType : Type := file | directory | symlink.

(** [interface TransformedEntry], with the fields as they are at run time:
    whatever the parsed document held under the key. *)
Record TransformedEntry : Type := {
  name : Js.Value;
  type : EntryType;
  size : Js.Value;
  modified : Js.Value;
  permissions : Js.Value
}.

(** [interface TransformedOutput]. *)
Record TransformedOutput : Type := {
  path : Js.Value;
  entries : list TransformedEntry
}.

(** *** The declared shape, read off a parsed document *)

Definition as_string (v : Js.Value) : option string :=
  match v with Js.Str s => Some s | _ => None end.

Definition as_number (v : Js.Value) : option Z :=
  match v with Js.Number n => Some n | _ => None end.

Definition as_boolean (v : Js.Value) : option bool :=
  match v with Js.Bool b => Some b | _ => None end.

(** [key?: string]: absent, or a string. *)
Definition as_optional_string (v : Js.Value) : option (option string) :=
  match v with
  | Js.Undefined => Some None
  | Js.Str s => Some (Some s)
  | _ => None
  end.

(** The value is an object of type [RawFileEntry]. *)
Definition decode_RawFileEntry (v : Js.Value) : option RawFileEntry :=
  match v with
  | Js.Object fields =>
      n ← as_string (Js.own_property "name" fields);
      s ← as_number (Js.own_property "size" fields);
      m ← as_string (Js.own_property "modified" fields);
      d ← as_boolean (Js.own_property "is_dir" fields);
      l ← as_boolean (Js.own_property "is_symlink" fields);
      p ← as_optional_string (Js.own_property "permissions" fields);
      t ← as_optional_string (Js.own_property "file_type" fields);
      Some {| raw_name := n; raw_size := s; raw_modified := m; is_dir := d;
              is_symlink := l; raw_permissions := p; file_type := t |}
  | _ => None
  end.

(** The value is an object of type [RawCliOutput]. *)
Definition decode_RawCliOutput (v : Js.Value) : option RawCliOutput :=
  match v with
  | Js.Object fields =>
      p ← as_string (Js.own_property "path" fields);
      t ← as_number (Js.own_property "total" fields);
      es ← match Js.own_property "entries" fields with
           | Js.Array items => mapM decode_RawFileEntry items
           | _ => None
           end;
      Some {| raw_path := p; total := t; raw_entries := es |}
  | _ => None
  end.

(** The object a [RawFileEntry] is on the wire, optional keys left out
    when absent. *)
Definition optional_field (key : string) (o : option string)
  : list (string * Js.Value) :=
  match o with Some s => [(key, Js.Str s)] | None => [] end.

Definition encode_RawFileEntry (r : RawFileEntry) : Js.Value :=
  Js.Object
    ([("name", Js.Str (raw_name r)); ("size", Js.Number (raw_size r));
      ("modified", Js.Str (raw_modified r)); ("is_dir", Js.Bool (is_dir r));
      ("is_symlink", Js.Bool (is_symlink r))]
     ++ optional_field "permissions" (raw_permissions r)
     ++ optional_field "file_type" (file_type r)).

(** The arrow function of [map] read at the declared types: what it makes
    of a [RawFileEntry]. *)
Definition normalize (r : RawFileEntry) : TransformedEntry :=
  {| name := Js.Str (raw_name r);
     type := if is_dir r then directory else if is_symlink r then symlink else file;
     size := Js.Number (raw_size r);
     modified := Js.Str (raw_modified r);
     permissions := match raw_permissions r with
                    | Some s => if String.eqb s "" then Js.Str "-" else Js.Str s
                    | None => Js.Str "-"
                    end |}.

(** [null] or [undefined]: the values a property read throws on. *)
Definition nullish (v : Js.Value) : bool :=
  match v with Js.Undefined | Js.Null => true | _ => false end.

(** The parsed documents on which the [try] body throws: anything but an
    object whose [entries] is an array without [null] elements. *)
Definition unusable (v : Js.Value) : bool :=
  match v with
  | Js.Object fields =>
      match Js.own_property "entries" fields with
      | Js.Array items => existsb nullish items
      | _ => true
      end
  | _ => true
  end.

(** *** [listDirectory] *)

(** The arrow function given to [rawOutput.entries.map]; [None] is a thrown
    TypeError. *)
Definition transformEntry (entry : Js.Value) : option TransformedEntry :=
  n ← Js.get entry "name";
  d ← Js.get entry "is_dir";
  l ← Js.get entry "is_symlink";
  s ← Js.get entry "size";
  m ← Js.get entry "modified";
  p ← Js.get entry "permissions";
  Some {| name := n;
          type := if Js.truthy d then directory
                  else if Js.truthy l then symlink else file;
          size := s;
          modified := m;
          permissions := Js.or_else p (Js.Str "-") |}.

(** What the arrow function makes of a value that has none of the keys. *)
Definition blank_entry : TransformedEntry :=
  {| name := Js.Undefined; type := file; size := Js.Undefined;
     modified := Js.Undefined; permissions := Js.Str "-" |}.

(** The body of the [try] after [JSON.parse]: [None] when it throws
    (reading [entries] off [null], or no callable [map]: only arrays have
    one). *)
Definition transform (rawOutput : Js.Value) : option TransformedOutput :=
  es ← Js.get rawOutput "entries";
  p ← Js.get rawOutput "path";
  match es with
  | Js.Array items =>
      transformedEntries ← mapM transformEntry items;
      Some {| path := p; entries := transformedEntries |}
  | _ => None
  end.

(** One [spawn(command, args)]. *)
Record SpawnCall : Type := { command : string; args : list string }.

(** Events of the child process the promise executor subscribes to.  The
    [data] of an output event is the text [data.toString()] gives for that
    chunk alone: a character cut by the chunk's boundary has already been
    replaced in it. *)
Inductive ChildEvent : Type :=
| stdout_data (data : string)
| stderr_data (data : string)
| close (code : option Z)          (* [None]: [null], killed by a signal *)
| error (err : Js.Error).

(** What the executor's closures hold: the two buffers and the promise. *)
Record Call : Type := {
  stdout : string;
  stderr : string;
  promise : option (Js.Settled TransformedOutput)
}.

Definition pending : Call := {| stdout := ""; stderr := ""; promise := None |}.

(** [resolve] and [reject]: only the first call settles the promise. *)
Definition settle (s : Js.Settled TransformedOutput) (c : Call) : Call :=
  match promise c with
  | Some _ => c
  | None => {| stdout := stdout c; stderr := stderr c; promise := Some s |}
  end.

(** [`${code}`]. *)
Definition show_code (code : option Z) : string :=
  match code with Some n => Js.show n | None => "null" end.

(** The output events, and the text they add up to on each stream. *)
Definition is_data (ev : ChildEvent) : bool :=
  match ev with stdout_data _ | stderr_data _ => true | _ => false end.

Definition stdout_of (events : list ChildEvent) : string :=
  foldr (fun ev acc => match ev with stdout_data d => d +:+ acc | _ => acc end) "" events.

Definition stderr_of (events : list ChildEvent) : string :=
  foldr (fun ev acc => match ev with stderr_data d => d +:+ acc | _ => acc end) "" events.

Section WithRuntime.

(** [JSON.parse]: [None] when it throws a SyntaxError. *)
Variable JSON_parse : string -> option Js.Value.
(** The result of [getXlsPath()]. *)
Variable xlsPath : string.

Definition spawned (dirPath : string) : list SpawnCall :=
  [ {| command := xlsPath; args := ["--format"; "json"; "-a"; "-l"; dirPath] |} ].

Definition on_close (code : option Z) (c : Call) : Call :=
  match code with
  | Some 0 =>
      match JSON_parse (stdout c) ≫= transform with
      | Some out => settle (Js.Resolved out) c
      | None =>
          settle (Js.Rejected (Js.mkError ("Failed to parse JSON: " +:+ stdout c))) c
      end
  | _ =>
      settle (Js.Rejected (Js.mkError
                ("xls exited with code " +:+ show_code code +:+ ": " +:+ stderr c))) c
  end.

Definition on_error (err : Js.Error) (c : Call) : Call :=
  settle (Js.Rejected (Js.mkError ("Failed to spawn xls: " +:+ Js.message err))) c.

Definition handle (c : Call) (ev : ChildEvent) : Call :=
  match ev with
  | stdout_data data =>
      {| stdout := stdout c +:+ data; stderr := stderr c; promise := promise c |}
  | stderr_data data =>
      {| stdout := stdout c; stderr := stderr c +:+ data; promise := promise c |}
  | close code => on_close code c
  | error err => on_error err c
  end.

(** [listDirectory(dirPath)] against a child that emits [events]: the
    processes it spawned and the state of its promise. *)
Definition listDirectory (dirPath : string) (events : list ChildEvent)
  : list SpawnCall * option (Js.Settled TransformedOutput) :=
  (spawned dirPath, promise (fold_left handle events pending)).

End WithRuntime.

(** *** [getXlsPath] *)

(** What [getXlsPath] reads: [app.isPackaged], [process.platform],
    [__dirname] and [process.resourcesPath]. *)
Record Host : Type := {
  isPackaged : bool;
  platform : string;
  dirname : string;
  resourcesPath : string
}.

Section WithPath.

(** [path.join(...)]. *)
Variable path_join : list string -> string.

Definition getXlsPath (h : Host) : string :=
  let isDev := negb (isPackaged h) in
  let ext := if String.eqb (platform h) "win32" then ".exe" else "" in
  if isDev then path_join [dirname h; "../../bin"; "xls" +:+ ext]
  else path_join [resourcesPath h; "bin"; "xls" +:+ ext].

End WithPath.

End Main.

(** ** Main process, the other copy (the file with [--json]) *)

Module MainLegacy.

Record Call : Type := {
  stdout : string;
  stderr : string;
  promise : option (Js.Settled Js.Value)
}.

Definition pending : Call := {| stdout := ""; stderr := ""; promise := None |}.

Definition settle (s : Js.Settled Js.Value) (c : Call) : Call :=
  match promise c with
  | Some _ => c
  | None => {| stdout := stdout c; stderr := stderr c; promise := Some s |}
  end.

Section WithRuntime.

Variable JSON_parse : string -> option Js.Value.
Variable xlsPath : string.

Definition spawned (dirPath : string) : list Main.SpawnCall :=
  [ {| Main.command := xlsPath; Main.args := ["--json"; "-a"; "-l"; dirPath] |} ].

Definition on_close (code : option Z) (c : Call) : Call :=
  match code with
  | Some 0 =>
      match JSON_parse (stdout c) with
      | Some v => settle (Js.Resolved v) c
      | None =>
          settle (Js.Rejected (Js.mkError ("Failed to parse JSON: " +:+ stdout c))) c
      end
  | _ =>
      settle (Js.Rejected (Js.mkError
                ("xls exited with code " +:+ Main.show_code code +:+ ": " +:+ stderr c))) c
  end.

Definition on_error (err : Js.Error) (c : Call) : Call :=
  settle (Js.Rejected (Js.mkError ("Failed to spawn xls: " +:+ Js.message err))) c.

Definition handle (c : Call) (ev : Main.ChildEvent) : Call :=
  match ev with
  | Main.stdout_data data =>
      {| stdout := stdout c +:+ data; stderr := stderr c; promise := promise c |}
  | Main.stderr_data data =>
      {| stdout := stdout c; stderr := stderr c +:+ data; promise := promise c |}
  | Main.close code => on_close code c
  | Main.error err => on_error err c
  end.

Definition listDirectory (dirPath : string) (events : list Main.ChildEvent)
  : list Main.SpawnCall * option (Js.Settled Js.Value) :=
  (spawned dirPath, promise (fold_left handle events pending)).

End WithRuntime.

Section WithPath.

Variable path_join : list string -> string.

Definition getXlsPath (h : Main.Host) : string :=
  let isDev := negb (Main.isPackaged h) in
  if isDev then "xls"
  else
    let ext := if String.eqb (Main.platform h) "win32" then ".exe" else "" in
    path_join [Main.resourcesPath h; "bin"; "xls" +:+ ext].

End WithPath.

(** How the settlements of the two copies compare on the same child: the
    normalising copy resolves with the transform of what this one resolves
    with, rejects where this one rejects, and also rejects, as a parse
    failure, the documents its [try] body cannot use. *)
Definition agrees (current : option (Js.Settled Main.TransformedOutput))
    (legacy : option (Js.Settled Js.Value)) : Prop :=
  match current, legacy with
  | None, None => True
  | Some (Js.Resolved out), Some (Js.Resolved v) => Main.transform v = Some out
  | Some (Js.Rejected e), Some (Js.Rejected e') => e = e'
  | Some (Js.Rejected e), Some (Js.Resolved v) =>
      Main.transform v = None /\
      exists text, e = Js.mkError ("Failed to parse JSON: " +:+ text)
  | _, _ => False
  end.

End MainLegacy.


(** ** Renderer: navigation state, history and display

    The script at the types its interfaces declare: paths and names are
    strings.  On such values no statement of the script throws.  [Runtime],
    further down, runs it on whatever the main process can resolve with. *)

Module Renderer.

(** ['file' | 'directory' | 'symlink'], the same three literals on both
    sides of the bridge. *)
Abbreviation EntryType := Main.EntryType.
Abbreviation file := Main.file.
Abbreviation directory := Main.directory.
Abbreviation symlink := Main.symlink.

(** [interface FileEntry]. *)
Record FileEntry : Type := {
  name : string;
  type : EntryType;
  size : Z;
  modified : string;
  permissions : string
}.

(** [interface DirectoryListing]. *)
Record DirectoryListing : Type := {
  path : string;
  entries : list FileEntry
}.

(** The three module-level [let]s. *)
Record NavigationState : Type := {
  currentPath : string;
  navigationHistory : list string;
  historyIndex : Z
}.

(** Their initialisers. *)
Definition initial : NavigationState :=
  {| currentPath := "/"; navigationHistory := []; historyIndex := -1 |}.

(** One [div.tree-item]: the entry it shows, the three texts computed for
    it, and whether a [dblclick] listener was attached. *)
Record TreeItem : Type := {
  item_entry : FileEntry;
  item_icon : string;
  item_size : string;
  item_modified : string;
  item_dblclick : bool
}.

(** What [container.innerHTML] holds. *)
Inductive Container : Type :=
| Static                              (* the page as loaded *)
| Loading                             (* [div.loading] Loading... *)
| Items (items : list TreeItem)
| EmptyDirectory                      (* [div.loading] Empty directory *)
| ErrorMessage (text : string).       (* [div.error] with this text *)

(** The part of the document the script writes.  A path is an
    [option string]: [None] is [undefined], what indexing an array out of
    range gives. *)
Record Dom : Type := {
  container : Container;
  pathDisplay : option string;
  btnBack_disabled : bool
}.

Record Page : Type := { nav : NavigationState; dom : Dom }.

(** [window.electronAPI.listDirectory(path)] still to be answered, and the
    flag the suspended [loadDirectory] will resume with. *)
Record Pending : Type := { requested : option string; addToHistory : bool }.

(** The five operations the page offers. *)
Inductive Operation : Type :=
| navigate (path : string)      (* [loadDirectory(path)]: double click, first load *)
| goBack                        (* [btnBack] *)
| goUp                          (* [btnUp] *)
| refresh                       (* [btnRefresh] *)
| goHome.                       (* [btnHome] *)

(** *** Arrays and strings of the runtime *)

(** [a.slice(0, end)]. *)
Definition slice0 {A : Type} (stop : Z) (a : list A) : list A :=
  if stop <? 0 then take (Z.to_nat (Z.max (Z.of_nat (length a) + stop) 0)) a
  else take (Z.to_nat stop) a.

(** [a[i]]. *)
Definition index {A : Type} (a : list A) (i : Z) : option A :=
  if i <? 0 then None else a !! Z.to_nat i.

(** [navigationHistory[historyIndex]]. *)
Definition at_cursor (s : NavigationState) : option string :=
  index (navigationHistory s) (historyIndex s).

(** The cursor is [-1] on an empty history and a valid position otherwise. *)
Definition cursor_in_range (s : NavigationState) : Prop :=
  (navigationHistory s = [] /\ historyIndex s = -1)
  \/ 0 <= historyIndex s < Z.of_nat (length (navigationHistory s)).

(** The entries the container lists, top to bottom. *)
Definition displayed (c : Container) : list FileEntry :=
  match c with
  | Items items => map item_entry items
  | _ => []
  end.

(** The error text on the page, if it shows one. *)
Definition reported_error (p : Page) : option string :=
  match container (dom p) with
  | ErrorMessage text => Some text
  | _ => None
  end.

(** [s.split('/')]. *)
Fixpoint split_slash (s : string) : list string :=
  match s with
  | EmptyString => [""]
  | String c rest =>
      if Ascii.eqb c "/"%char then "" :: split_slash rest
      else match split_slash rest with
           | head :: tail => String c head :: tail
           | [] => [String c ""]
           end
  end.

(** [a.join('/')]. *)
Fixpoint join_slash (a : list string) : string :=
  match a with
  | [] => ""
  | [x] => x
  | x :: rest => x +:+ "/" +:+ join_slash rest
  end.

(** [x || '/'] on strings. *)
Definition or_root (x : string) : string := if String.eqb x "" then "/" else x.

(** [currentPath.split('/').slice(0, -1).join('/') || '/']. *)
Definition parent_of (p : string) : string :=
  or_root (join_slash (slice0 (-1) (split_slash p))).

(** [`${currentPath}/${entry.name}`], or [`/${entry.name}`] at the root. *)
Definition child_of (current entry_name : string) : string :=
  if String.eqb current "/" then "/" +:+ entry_name
  else current +:+ "/" +:+ entry_name.

(** The stable sort of [Array.prototype.sort] for a comparator [cmp]:
    [x] goes before the first element it does not compare greater than. *)
Fixpoint insert_by {A : Type} (cmp : A -> A -> Z) (x : A) (a : list A) : list A :=
  match a with
  | [] => [x]
  | y :: rest => if cmp x y <=? 0 then x :: y :: rest else y :: insert_by cmp x rest
  end.

(** [x] may stand before [y]: the comparator does not put it after. *)
Definition before {A : Type} (cmp : A -> A -> Z) (x y : A) : Prop := cmp x y <= 0.

Definition sort_by {A : Type} (cmp : A -> A -> Z) (a : list A) : list A :=
  foldr (insert_by cmp) [] a.

Definition is_directory (e : FileEntry) : bool :=
  match type e with directory => true | _ => false end.

Definition getIcon (t : EntryType) : string :=
  match t with
  | directory => "📁"
  | symlink => "🔗"
  | file => "📄"
  end.

Section WithRuntime.

(** [a.localeCompare(b)]. *)
Variable localeCompare : string -> string -> Z.
(** [(n / d).toFixed(1)]. *)
Variable toFixed1 : Z -> Z -> string.
(** [new Date(iso).toLocaleString()]. *)
Variable toLocaleString : string -> string.
(** What [window.electronAPI.getHomeDirectory()] resolves to. *)
Variable home : string.

Definition formatSize (bytes : Z) : string :=
  if bytes <? 1024 then Js.show bytes +:+ " B"
  else if bytes <? 1024 * 1024 then toFixed1 bytes 1024 +:+ " KB"
  else if bytes <? 1024 * 1024 * 1024 then toFixed1 bytes (1024 * 1024) +:+ " MB"
  else toFixed1 bytes (1024 * 1024 * 1024) +:+ " GB".

Definition formatDate (isoDate : string) : string := toLocaleString isoDate.

(** The comparator passed to [sort]. *)
Definition compareEntries (a b : FileEntry) : Z :=
  if is_directory a && negb (is_directory b) then -1
  else if negb (is_directory a) && is_directory b then 1
  else localeCompare (name a) (name b).

(** [[...listing.entries].sort(...)]. *)
Definition sorted_entries (l : list FileEntry) : list FileEntry :=
  sort_by compareEntries l.

(** The body of the [for] loop. *)
Definition render_item (entry : FileEntry) : TreeItem :=
  {| item_entry := entry;
     item_icon := getIcon (type entry);
     item_size := if is_directory entry then "-" else formatSize (size entry);
     item_modified := formatDate (modified entry);
     item_dblclick := is_directory entry |}.

(** [loadDirectory] up to its [await]. *)
Definition loadDirectory_begin (path : option string) (p : Page) : Page :=
  {| nav := nav p;
     dom := {| container := Loading;
               pathDisplay := path;
               btnBack_disabled := btnBack_disabled (dom p) |} |}.

(** The [if (addToHistory)] block. *)
Definition record_history (s : NavigationState) : NavigationState :=
  let sliced := slice0 (historyIndex s + 1) (navigationHistory s) in
  let pushed := (sliced ++ [currentPath s])%list in
  {| currentPath := currentPath s;
     navigationHistory := pushed;
     historyIndex := Z.of_nat (length pushed) - 1 |}.

(** [loadDirectory] from its [await] on: the [try] body when the promise
    resolved, the [catch] when it rejected. *)
Definition loadDirectory_resume (addToHistory : bool)
    (result : Js.Settled DirectoryListing) (p : Page) : Page :=
  match result with
  | Js.Resolved listing =>
      let adopted := {| currentPath := path listing;
                        navigationHistory := navigationHistory (nav p);
                        historyIndex := historyIndex (nav p) |} in
      let s := if addToHistory then record_history adopted else adopted in
      let sorted := sorted_entries (entries listing) in
      {| nav := s;
         dom := {| container := match sorted with
                                | [] => EmptyDirectory
                                | _ => Items (map render_item sorted)
                                end;
                   pathDisplay := Some (currentPath s);
                   btnBack_disabled := historyIndex s <=? 0 |} |}
  | Js.Rejected err =>
      {| nav := nav p;
         dom := {| container := ErrorMessage ("Error: " +:+ Js.toString err);
                   pathDisplay := pathDisplay (dom p);
                   btnBack_disabled := btnBack_disabled (dom p) |} |}
  end.

(** A call [loadDirectory(path, addToHistory)] up to its suspension. *)
Definition loadDirectory_call (path : option string) (addToHistory : bool) (p : Page)
  : Page * option Pending :=
  (loadDirectory_begin path p,
   Some {| requested := path; addToHistory := addToHistory |}).

(** The [btnBack] click listener. *)
Definition btnBack_click (p : Page) : Page * option Pending :=
  if 0 <? historyIndex (nav p) then
    let s := {| currentPath := currentPath (nav p);
                navigationHistory := navigationHistory (nav p);
                historyIndex := historyIndex (nav p) - 1 |} in
    loadDirectory_call (index (navigationHistory s) (historyIndex s)) false
      {| nav := s; dom := dom p |}
  else (p, None).

(** The [btnUp] click listener. *)
Definition btnUp_click (p : Page) : Page * option Pending :=
  loadDirectory_call (Some (parent_of (currentPath (nav p)))) true p.

(** The [btnHome] click listener, once the home directory is known. *)
Definition btnHome_click (p : Page) : Page * option Pending :=
  loadDirectory_call (Some home) true p.

(** The [btnRefresh] click listener. *)
Definition btnRefresh_click (p : Page) : Page * option Pending :=
  loadDirectory_call (Some (currentPath (nav p))) false p.

(** The [dblclick] listener of the item of a directory named
    [entry_name]; it reads [currentPath] when it runs. *)
Definition item_dblclick_listener (entry_name : string) (p : Page)
  : Page * option Pending :=
  loadDirectory_call (Some (child_of (currentPath (nav p)) entry_name)) true p.

(** An operation up to the point where it waits for the listing, if it
    asks for one. *)
Definition start (op : Operation) (p : Page) : Page * option Pending :=
  match op with
  | navigate path => loadDirectory_call (Some path) true p
  | goBack => btnBack_click p
  | goUp => btnUp_click p
  | refresh => btnRefresh_click p
  | goHome => btnHome_click p
  end.

(** The continuation, run when the listing promise settles. *)
Definition finish (started : Page * option Pending)
    (result : Js.Settled DirectoryListing) : Page :=
  match snd started with
  | Some pending => loadDirectory_resume (addToHistory pending) result (fst started)
  | None => fst started
  end.

(** An operation run to completion against the answer [result] of the
    enumeration client. *)
Definition run (op : Operation) (result : Js.Settled DirectoryListing) (p : Page) : Page :=
  finish (start op p) result.

(** A session: operations with the answers they got, in order. *)
Definition run_all (steps : list (Operation * Js.Settled DirectoryListing)) (p : Page)
  : Page :=
  fold_left (fun q step => run (fst step) (snd step) q) steps p.

End WithRuntime.

(** The page as the script finds it. *)
Definition initial_page : Page :=
  {| nav := initial;
     dom := {| container := Static; pathDisplay := None; btnBack_disabled := false |} |}.

(** The paths of the listings a session received. *)
Definition reported_paths (steps : list (Operation * Js.Settled DirectoryListing))
  : list string :=
  flat_map (fun step => match snd step with
                        | Js.Resolved listing => [path listing]
                        | Js.Rejected _ => []
                        end) steps.

(** The string contains a [/]. *)
Fixpoint has_slash (s : string) : bool :=
  match s with
  | EmptyString => false
  | String c rest => Ascii.eqb c "/"%char || has_slash rest
  end.

End Renderer.


(** ** Renderer, on the values that arrive

    The interfaces of the renderer are declarations only: at run time a
    listing is the object the main process resolved with, whose [path] and
    entry fields are whatever the parsed document held.  This module runs
    the same script on those values, with the path where the comparator
    throws inside the [try]. *)

Module Runtime.

(** What [listDirectory] of the main process resolves with and the bridge
    hands over. *)
Abbreviation Entry := Main.TransformedEntry.
Abbreviation Listing := Main.TransformedOutput.

(** The three module-level [let]s, holding what was assigned to them. *)
Record NavigationState : Type := {
  currentPath : Js.Value;
  navigationHistory : list Js.Value;
  historyIndex : Z
}.

Definition initial : NavigationState :=
  {| currentPath := Js.Str "/"; navigationHistory := []; historyIndex := -1 |}.

(** One [div.tree-item]. *)
Record TreeItem : Type := {
  item_entry : Entry;
  item_icon : string;
  item_size : string;
  item_modified : string;
  item_dblclick : bool
}.

Inductive Container : Type :=
| Static
| Loading
| Items (items : list TreeItem)
| EmptyDirectory
| ErrorMessage (text : string).

(** [pathDisplay] holds the value last assigned to its [textContent]. *)
Record Dom : Type := {
  container : Container;
  pathDisplay : option Js.Value;
  btnBack_disabled : bool
}.

Record Page : Type := { nav : NavigationState; dom : Dom }.

Record Pending : Type := { requested : Js.Value; addToHistory : bool }.

Definition initial_page : Page :=
  {| nav := initial;
     dom := {| container := Static; pathDisplay := None; btnBack_disabled := false |} |}.

(** [a[i]], [undefined] out of range. *)
Definition element (a : list Js.Value) (i : Z) : Js.Value :=
  default Js.Undefined (Renderer.index a i).

Definition at_cursor (s : NavigationState) : option Js.Value :=
  Renderer.index (navigationHistory s) (historyIndex s).

Definition cursor_in_range (s : NavigationState) : Prop :=
  (navigationHistory s = [] /\ historyIndex s = -1)
  \/ 0 <= historyIndex s < Z.of_nat (length (navigationHistory s)).

Definition displayed (c : Container) : list Entry :=
  match c with
  | Items items => map item_entry items
  | _ => []
  end.

Definition reported_error (p : Page) : option string :=
  match container (dom p) with
  | ErrorMessage text => Some text
  | _ => None
  end.

Definition is_directory (e : Entry) : bool :=
  match Main.type e with Main.directory => true | _ => false end.

(** The entry's [name] is a string, so that it has a [localeCompare]. *)
Definition has_string_name (e : Entry) : bool :=
  match Main.name e with Js.Str _ => true | _ => false end.

(** The insertion sort of [Renderer.sort_by] for a comparator that can
    throw ([inl], with what it threw on); the first comparison that throws
    ends the sort.  Which pairs an engine compares, and in which argument
    order, is its own affair; what is used of this schedule below is that
    nothing is thrown when no comparison can throw, and that a throw leaves
    no sorted array. *)
Fixpoint insert_by {A E : Type} (cmp : A -> A -> E + Z) (x : A) (a : list A)
  : E + list A :=
  match a with
  | [] => inr [x]
  | y :: rest =>
      match cmp x y with
      | inl e => inl e
      | inr c =>
          if c <=? 0 then inr (x :: y :: rest)
          else match insert_by cmp x rest with
               | inl e => inl e
               | inr placed => inr (y :: placed)
               end
      end
  end.

Definition sort_by {A E : Type} (cmp : A -> A -> E + Z) (a : list A) : E + list A :=
  foldr (fun x sorted => match sorted with
                         | inl e => inl e
                         | inr l => insert_by cmp x l
                         end) (inr []) a.

Section WithRuntime.

(** [a.localeCompare(b)] on two strings. *)
Variable localeCompare : string -> string -> Z.
(** ToString of a value that is not a string, as applied to the argument
    of [localeCompare]. *)
Variable ToString : Js.Value -> string.
(** [(n / d).toFixed(1)]. *)
Variable toFixed1 : Z -> Z -> string.
(** [formatSize(v)] for a [v] that is not a number. *)
Variable formatSize_other : Js.Value -> string.
(** [new Date(v).toLocaleString()]. *)
Variable toLocaleString : Js.Value -> string.
(** [`${err}`] for the TypeError of [v.localeCompare(...)] on a [v] that is
    not a string. *)
Variable thrown : Js.Value -> string.
(** What [window.electronAPI.getHomeDirectory()] resolves to. *)
Variable home : string.

(** The comparator passed to [sort].  [a.name.localeCompare] throws unless
    [a.name] is a string; the argument [b.name] is converted to one. *)
Definition compareEntries (a b : Entry) : Js.Value + Z :=
  if is_directory a && negb (is_directory b) then inr (-1)
  else if negb (is_directory a) && is_directory b then inr 1
  else match Main.name a with
       | Js.Str s =>
           inr (localeCompare s match Main.name b with
                                | Js.Str t => t
                                | other => ToString other
                                end)
       | not_a_string => inl not_a_string
       end.

Definition sorted_entries (l : list Entry) : Js.Value + list Entry :=
  sort_by compareEntries l.

Definition render_item (entry : Entry) : TreeItem :=
  {| item_entry := entry;
     item_icon := Renderer.getIcon (Main.type entry);
     item_size := if is_directory entry then "-"
                  else match Main.size entry with
                       | Js.Number bytes => Renderer.formatSize toFixed1 bytes
                       | other => formatSize_other other
                       end;
     item_modified := toLocaleString (Main.modified entry);
     item_dblclick := is_directory entry |}.

Definition loadDirectory_begin (path : Js.Value) (p : Page) : Page :=
  {| nav := nav p;
     dom := {| container := Loading;
               pathDisplay := Some path;
               btnBack_disabled := btnBack_disabled (dom p) |} |}.

Definition record_history (s : NavigationState) : NavigationState :=
  let sliced := Renderer.slice0 (historyIndex s + 1) (navigationHistory s) in
  let pushed := (sliced ++ [currentPath s])%list in
  {| currentPath := currentPath s;
     navigationHistory := pushed;
     historyIndex := Z.of_nat (length pushed) - 1 |}.

(** [loadDirectory] from its [await] on.  The assignments to the state, the
    path display and the back button come first; the sort comes after them,
    and when its comparator throws the [catch] replaces the container. *)
Definition loadDirectory_resume (addToHistory : bool)
    (result : Js.Settled Listing) (p : Page) : Page :=
  match result with
  | Js.Resolved listing =>
      let adopted := {| currentPath := Main.path listing;
                        navigationHistory := navigationHistory (nav p);
                        historyIndex := historyIndex (nav p) |} in
      let s := if addToHistory then record_history adopted else adopted in
      {| nav := s;
         dom := {| container :=
                     match sorted_entries (Main.entries listing) with
                     | inr [] => EmptyDirectory
                     | inr sorted => Items (map render_item sorted)
                     | inl culprit => ErrorMessage ("Error: " +:+ thrown culprit)
                     end;
                   pathDisplay := Some (currentPath s);
                   btnBack_disabled := historyIndex s <=? 0 |} |}
  | Js.Rejected err =>
      {| nav := nav p;
         dom := {| container := ErrorMessage ("Error: " +:+ Js.toString err);
                   pathDisplay := pathDisplay (dom p);
                   btnBack_disabled := btnBack_disabled (dom p) |} |}
  end.

Definition loadDirectory_call (path : Js.Value) (addToHistory : bool) (p : Page)
  : Page * option Pending :=
  (loadDirectory_begin path p,
   Some {| requested := path; addToHistory := addToHistory |}).

Definition btnBack_click (p : Page) : Page * option Pending :=
  if 0 <? historyIndex (nav p) then
    let s := {| currentPath := currentPath (nav p);
                navigationHistory := navigationHistory (nav p);
                historyIndex := historyIndex (nav p) - 1 |} in
    loadDirectory_call (element (navigationHistory s) (historyIndex s)) false
      {| nav := s; dom := dom p |}
  else (p, None).

(** [currentPath.split] exists on a string only; on anything else the
    listener ends with a TypeError before it calls [loadDirectory]. *)
Definition btnUp_click (p : Page) : Page * option Pending :=
  match currentPath (nav p) with
  | Js.Str current => loadDirectory_call (Js.Str (Renderer.parent_of current)) true p
  | _ => (p, None)
  end.

Definition btnHome_click (p : Page) : Page * option Pending :=
  loadDirectory_call (Js.Str home) true p.

Definition btnRefresh_click (p : Page) : Page * option Pending :=
  loadDirectory_call (currentPath (nav p)) false p.

Definition start (op : Renderer.Operation) (p : Page) : Page * option Pending :=
  match op with
  | Renderer.navigate path => loadDirectory_call (Js.Str path) true p
  | Renderer.goBack => btnBack_click p
  | Renderer.goUp => btnUp_click p
  | Renderer.refresh => btnRefresh_click p
  | Renderer.goHome => btnHome_click p
  end.

Definition finish (started : Page * option Pending) (result : Js.Settled Listing)
  : Page :=
  match snd started with
  | Some pending => loadDirectory_resume (addToHistory pending) result (fst started)
  | None => fst started
  end.

Definition run (op : Renderer.Operation) (result : Js.Settled Listing) (p : Page)
  : Page :=
  finish (start op p) result.

Definition run_all (steps : list (Renderer.Operation * Js.Settled Listing)) (p : Page)
  : Page :=
  fold_left (fun q step => run (fst step) (snd step) q) steps p.

End WithRuntime.

(** *** The declared types inside the run-time values *)

Definition of_entry (e : Renderer.FileEntry) : Entry :=
  {| Main.name := Js.Str (Renderer.name e);
     Main.type := Renderer.type e;
     Main.size := Js.Number (Renderer.size e);
     Main.modified := Js.Str (Renderer.modified e);
     Main.permissions := Js.Str (Renderer.permissions e) |}.

Definition of_listing (l : Renderer.DirectoryListing) : Listing :=
  {| Main.path := Js.Str (Renderer.path l);
     Main.entries := map of_entry (Renderer.entries l) |}.

Definition of_result (r : Js.Settled Renderer.DirectoryListing) : Js.Settled Listing :=
  match r with
  | Js.Resolved l => Js.Resolved (of_listing l)
  | Js.Rejected err => Js.Rejected err
  end.

Definition of_nav (s : Renderer.NavigationState) : NavigationState :=
  {| currentPath := Js.Str (Renderer.currentPath s);
     navigationHistory := map Js.Str (Renderer.navigationHistory s);
     historyIndex := Renderer.historyIndex s |}.

End Runtime.


(** ** Fixtures *)

Module Fixture.

(** The double quote. *)
Definition dq : string := String (Ascii.ascii_of_nat 34) EmptyString.

(** The JSON text [{ "entries": [] }] without the spaces: a well-formed
    document that has neither [path] nor [total]. *)
Definition entries_only_text : string :=
  "{" +:+ dq +:+ "entries" +:+ dq +:+ ":[]}".

(** What [JSON.parse] returns for it. *)
Definition entries_only : Js.Value := Js.Object [("entries", Js.Array [])].

(** [JSON.parse] on the one text the fixture needs; a SyntaxError elsewhere. *)
Definition parse (text : string) : option Js.Value :=
  if String.eqb text entries_only_text then Some entries_only else None.

(** A comparison of strings by code unit, standing for [localeCompare] in
    a locale that orders that way. *)
Definition code_unit_compare (a b : string) : Z :=
  match String.compare a b with Lt => -1 | Eq => 0 | Gt => 1 end.

(** [(n / d).toFixed(1)] on the exact quotient, rounding half up. *)
Definition toFixed1 (n d : Z) : string :=
  let tenths := (20 * n + d) / (2 * d) in
  Js.show (tenths / 10) +:+ "." +:+ Js.show (tenths mod 10).

(** The renderer in a runtime with these functions and this home. *)
Definition run := Renderer.run code_unit_compare toFixed1 (fun iso : string => iso) "/home/u".
Definition run_all :=
  Renderer.run_all code_unit_compare toFixed1 (fun iso : string => iso) "/home/u".
Definition start := Renderer.start "/home/u".

(** A directory entry as the tool reports it. *)
Definition raw_dir_link : Js.Value :=
  Js.Object [("name", Js.Str "a"); ("size", Js.Number 0);
             ("modified", Js.Str "2024-01-01T00:00:00Z");
             ("is_dir", Js.Bool true); ("is_symlink", Js.Bool true)].

Definition entry (n : string) (t : Main.EntryType) : Renderer.FileEntry :=
  {| Renderer.name := n; Renderer.type := t; Renderer.size := 10;
     Renderer.modified := "2024-01-01T00:00:00Z"; Renderer.permissions := "-" |}.

Definition listing (p : string) (es : list Renderer.FileEntry)
  : Js.Settled Renderer.DirectoryListing :=
  Js.Resolved {| Renderer.path := p; Renderer.entries := es |}.

Definition failure (m : string) : Js.Settled Renderer.DirectoryListing :=
  Js.Rejected (Js.mkError m).

Definition nav_at (cur : string) (h : list string) (i : Z) : Renderer.Page :=
  {| Renderer.nav := {| Renderer.currentPath := cur;
                        Renderer.navigationHistory := h;
                        Renderer.historyIndex := i |};
     Renderer.dom := Renderer.dom Renderer.initial_page |}.

(** A document with one entry that has a name and nothing else. *)
Definition nameless_flags : list (string * Js.Value) := [("name", Js.Str "x")].

Definition one_entry_doc : list (string * Js.Value) :=
  [("path", Js.Str "/d"); ("total", Js.Number 7);
   ("entries", Js.Array [Js.Object nameless_flags])].








End Fixture.


(** * Properties of the main process *)

Section EntryNormalizer.

Import Main.

Lemma or_else_optional (v : Js.Value) (o : option string) :
  as_optional_string v = Some o ->
  Js.or_else v (Js.Str "-")
  = match o with
    | Some s => if String.eqb s "" then Js.Str "-" else Js.Str s
    | None => Js.Str "-"
    end.
Proof.
  destruct v; simpl; intros H; inversion H; subst; try reflexivity.
  unfold Js.or_else; simpl. destruct (String.eqb s ""); reflexivity.
Qed.

(** On a value of the declared type the arrow function does not throw and
    returns [normalize] of the entry. *)
Lemma transformEntry_typed (entry : Js.Value) (r : RawFileEntry) :
  decode_RawFileEntry entry = Some r ->
  transformEntry entry = Some (normalize r).
Proof.
  destruct entry as [| | | | | |fields]; simpl; try discriminate.
  intros H.
  destruct (as_string (Js.own_property "name" fields)) as [n|] eqn:En; [|discriminate].
  destruct (as_number (Js.own_property "size" fields)) as [s|] eqn:Es; [|discriminate].
  destruct (as_string (Js.own_property "modified" fields)) as [m|] eqn:Em; [|discriminate].
  destruct (as_boolean (Js.own_property "is_dir" fields)) as [d|] eqn:Ed; [|discriminate].
  destruct (as_boolean (Js.own_property "is_symlink" fields)) as [l|] eqn:El; [|discriminate].
  destruct (as_optional_string (Js.own_property "permissions" fields)) as [p|] eqn:Ep;
    [|discriminate].
  destruct (as_optional_string (Js.own_property "file_type" fields)) as [t|] eqn:Et;
    [|discriminate].
  simpl in H. inversion H; subst r; clear H.
  unfold normalize, transformEntry; simpl.
  rewrite (or_else_optional _ _ Ep).
  destruct (Js.own_property "name" fields); try discriminate.
  destruct (Js.own_property "size" fields); try discriminate.
  destruct (Js.own_property "modified" fields); try discriminate.
  destruct (Js.own_property "is_dir" fields); try discriminate.
  destruct (Js.own_property "is_symlink" fields); try discriminate.
  simpl in En, Es, Em, Ed, El.
  injection En as ->; injection Es as ->; injection Em as ->.
  injection Ed as ->; injection El as ->. reflexivity.
Qed.

(** Every [RawFileEntry] is the reading of some parsed value, so the
    statements below that start from a reading cover them all. *)
Lemma decode_encode_RawFileEntry (r : RawFileEntry) :
  decode_RawFileEntry (encode_RawFileEntry r) = Some r.
Proof.
  destruct r as [n s m d l [p|] [t|]]; reflexivity.
Qed.

(** C1. [normalize] is total on raw entries and classifies by [is_dir]
    first: a directory whenever [is_dir] is true, whatever [is_symlink]
    says; otherwise a symlink when [is_symlink] is true; otherwise a file. *)
Theorem C1_classification (entry : Js.Value) (r : RawFileEntry) :
  decode_RawFileEntry entry = Some r ->
  exists t : TransformedEntry,
    transformEntry entry = Some t /\
    type t = match is_dir r, is_symlink r with
             | true, _ => directory
             | false, true => symlink
             | false, false => file
             end.
Proof.
  intros H. exists (normalize r). split.
  - exact (transformEntry_typed entry r H).
  - unfold normalize; simpl. destruct (is_dir r), (is_symlink r); reflexivity.
Qed.

Lemma C1_classification_witness :
  exists t : TransformedEntry,
    transformEntry Fixture.raw_dir_link = Some t /\ type t = directory.
Proof.
  destruct (C1_classification Fixture.raw_dir_link
              {| raw_name := "a"; raw_size := 0;
                 raw_modified := "2024-01-01T00:00:00Z";
                 is_dir := true; is_symlink := true;
                 raw_permissions := None; file_type := None |} eq_refl)
    as [t [Ht Hk]].
  exists t. split; [exact Ht | exact Hk].
Defined.

End EntryNormalizer.


Section EnumerationClient.

Import Main.

Variable JSON_parse : string -> option Js.Value.
Variable xlsPath : string.

Lemma append_assoc (a b c : string) : (a +:+ b) +:+ c = a +:+ (b +:+ c).
Proof.
  induction a as [|x a IH]; [reflexivity|].
  change (String x ((a +:+ b) +:+ c) = String x (a +:+ (b +:+ c))).
  f_equal. exact IH.
Qed.

Lemma append_empty_r (a : string) : a +:+ "" = a.
Proof.
  induction a as [|x a IH]; [reflexivity|].
  change (String x (a +:+ "") = String x a).
  f_equal. exact IH.
Qed.

(** Output events only fill the buffers. *)
Lemma handle_data (data : list ChildEvent) (c : Call) :
  forallb is_data data = true ->
  fold_left (handle JSON_parse) data c
  = {| stdout := stdout c +:+ stdout_of data;
       stderr := stderr c +:+ stderr_of data;
       promise := promise c |}.
Proof.
  revert c. induction data as [|ev data IH]; intros c H.
  - simpl. rewrite !append_empty_r. destruct c; reflexivity.
  - simpl in H. apply andb_prop in H as [Hev Hdata].
    cbn [fold_left]. rewrite (IH _ Hdata).
    destruct ev; simpl in Hev; try discriminate Hev;
      cbn [handle stdout stderr promise stdout_of stderr_of foldr];
      rewrite append_assoc; reflexivity.
Qed.

(** A settled promise stays as it is, whatever the child emits next. *)
Lemma settled_for_good (events : list ChildEvent) (c : Call)
    (s : Js.Settled TransformedOutput) :
  promise c = Some s ->
  promise (fold_left (handle JSON_parse) events c) = Some s.
Proof.
  revert c. induction events as [|ev events IH]; intros c H; [exact H|].
  simpl. apply IH.
  destruct ev as [d|d|code|err]; simpl; try exact H.
  - unfold on_close.
    destruct code as [[| |]|];
      try destruct (JSON_parse (stdout c) ≫= transform);
      unfold settle; rewrite H; exact H.
  - unfold on_error, settle. rewrite H. exact H.
Qed.

(** The first [close] or [error] after the output decides the promise. *)
Lemma first_terminal_decides (dirPath : string) (data rest : list ChildEvent)
    (terminal : ChildEvent) (s : Js.Settled TransformedOutput) :
  forallb is_data data = true ->
  promise (handle JSON_parse
             {| stdout := stdout_of data; stderr := stderr_of data; promise := None |}
             terminal) = Some s ->
  snd (listDirectory JSON_parse xlsPath dirPath (data ++ terminal :: rest)) = Some s.
Proof.
  intros Hdata Hs. unfold listDirectory; simpl snd.
  rewrite fold_left_app. simpl fold_left.
  apply settled_for_good.
  rewrite (handle_data data pending Hdata). exact Hs.
Qed.

Lemma mapM_transformEntry_None (items : list Js.Value) :
  mapM transformEntry items = None <-> existsb nullish items = true.
Proof.
  induction items as [|v items IH]; simpl.
  - split; discriminate.
  - destruct v; simpl; try (split; intros; reflexivity);
      (destruct (mapM transformEntry items); simpl in *;
       [ split; [discriminate | intros H; apply IH in H; discriminate]
       | split; [intros _; apply IH; reflexivity | reflexivity] ]).
Qed.

(** The [try] body throws exactly on the documents [unusable] describes. *)
Lemma transform_None (v : Js.Value) : transform v = None <-> unusable v = true.
Proof.
  unfold transform, unusable.
  destruct v as [| | | | | |fields]; simpl; try (split; intros; reflexivity).
  destruct (Js.own_property "entries" fields) as [| | | | |items|]; simpl;
    try (split; intros; reflexivity).
  pose proof (mapM_transformEntry_None items) as M.
  destruct (mapM transformEntry items); simpl.
  - split; [discriminate | intros H; apply M in H; discriminate].
  - split; [intros _; apply M; reflexivity | reflexivity].
Qed.

Lemma mapM_typed (items : list Js.Value) (rs : list RawFileEntry) :
  mapM decode_RawFileEntry items = Some rs ->
  mapM transformEntry items = Some (map normalize rs).
Proof.
  intros H. apply mapM_Some_1 in H. apply mapM_Some_2.
  induction H as [|v r items rs Hv _ IH]; simpl; constructor.
  - exact (transformEntry_typed v r Hv).
  - exact IH.
Qed.

(** A document of the declared shape goes through the [try] body, and comes
    out with the path it reports and its entries normalised. *)
Lemma transform_typed (v : Js.Value) (o : RawCliOutput) :
  decode_RawCliOutput v = Some o ->
  transform v = Some {| path := Js.Str (raw_path o);
                        entries := map normalize (raw_entries o) |}.
Proof.
  unfold transform, decode_RawCliOutput.
  destruct v as [| | | | | |fields]; simpl; try discriminate.
  destruct (Js.own_property "path" fields) as [| | | |p| |]; simpl; try discriminate.
  destruct (as_number (Js.own_property "total" fields)) as [t|]; simpl; [|discriminate].
  destruct (Js.own_property "entries" fields) as [| | | | |items|]; simpl; try discriminate.
  destruct (mapM decode_RawFileEntry items) as [rs|] eqn:Hrs; simpl; [|discriminate].
  intros H. inversion H; subst o; clear H. simpl.
  rewrite (mapM_typed items rs Hrs). reflexivity.
Qed.

(** C2 (amended). Once the child has produced its output and then closes
    or fails, [listDirectory] settles exactly once, by the first such event:
    - exit code 0 and a document of the declared shape: it resolves with the
      reported path and the normalised entries;
    - exit code 0 and any other document the [try] body can use: it still
      resolves;
    - exit code 0 and text that [JSON.parse] refuses, or a document without
      an [entries] array of non-null values: it rejects with the raw output;
    - any other exit code: it rejects with that code and all of stderr;
    - an [error] event: it rejects with the cause's message.
    Later events change nothing, and while the child has only produced
    output the promise is pending. *)
Theorem C2_listDirectory_outcomes (dirPath : string) (data rest : list ChildEvent) :
  forallb is_data data = true ->
  let settled terminal :=
    snd (listDirectory JSON_parse xlsPath dirPath (data ++ terminal :: rest)) in
  let out := stdout_of data in
  let parse_failure := Js.Rejected (Js.mkError ("Failed to parse JSON: " +:+ out)) in
  match JSON_parse out with
  | Some v =>
      (forall o : RawCliOutput,
          decode_RawCliOutput v = Some o ->
          settled (close (Some 0))
          = Some (Js.Resolved {| path := Js.Str (raw_path o);
                                 entries := map normalize (raw_entries o) |}))
      /\ (unusable v = false ->
          exists listing, settled (close (Some 0)) = Some (Js.Resolved listing))
      /\ (unusable v = true -> settled (close (Some 0)) = Some parse_failure)
  | None => settled (close (Some 0)) = Some parse_failure
  end
  /\ (forall code : option Z,
        code <> Some 0 ->
        settled (close code)
        = Some (Js.Rejected (Js.mkError
                  ("xls exited with code " +:+ show_code code +:+ ": "
                   +:+ stderr_of data))))
  /\ (forall err : Js.Error,
        settled (error err)
        = Some (Js.Rejected (Js.mkError ("Failed to spawn xls: " +:+ Js.message err))))
  /\ snd (listDirectory JSON_parse xlsPath dirPath data) = None.
Proof.
  intros Hdata settled out parse_failure. subst settled. cbv beta.
  repeat split; [| | |unfold listDirectory; simpl; now rewrite handle_data].
  - destruct (JSON_parse out) as [v|] eqn:Hparse.
    + repeat split.
      * intros o Ho. apply first_terminal_decides; [exact Hdata|].
        simpl. fold out. rewrite Hparse. simpl.
        rewrite (transform_typed v o Ho). reflexivity.
      * intros Hv. destruct (transform v) as [t|] eqn:Ht.
        -- exists t. apply first_terminal_decides; [exact Hdata|].
           simpl. fold out. rewrite Hparse. simpl. rewrite Ht. reflexivity.
        -- apply transform_None in Ht. congruence.
      * intros Hv. apply transform_None in Hv.
        apply first_terminal_decides; [exact Hdata|].
        simpl. fold out. rewrite Hparse. simpl. rewrite Hv. reflexivity.
    + apply first_terminal_decides; [exact Hdata|].
      simpl. fold out. rewrite Hparse. reflexivity.
  - intros code Hcode. apply first_terminal_decides; [exact Hdata|].
    destruct code as [[| |]|]; try reflexivity. congruence.
  - intros err. apply first_terminal_decides; [exact Hdata|]. reflexivity.
Qed.

End EnumerationClient.

Lemma C2_listDirectory_outcomes_witness :
  snd (Main.listDirectory Fixture.parse "xls" "/root"
         ([Main.stderr_data "permission "; Main.stderr_data "denied"]
          ++ Main.close (Some 2) :: [Main.close (Some 0)]))
  = Some (Js.Rejected (Js.mkError "xls exited with code 2: permission denied")).
Proof.
  destruct (C2_listDirectory_outcomes Fixture.parse "xls" "/root"
              [Main.stderr_data "permission "; Main.stderr_data "denied"]
              [Main.close (Some 0)] eq_refl) as [_ [H _]].
  exact (H (Some 2) ltac:(discriminate)).
Defined.

(** C2, as stated, fails: with exit code 0 and a well-formed document that
    lacks [path] and [total], hence is not of the declared shape, the call
    resolves instead of rejecting. *)
Lemma C2_off_shape_document_resolves :
  Fixture.parse Fixture.entries_only_text = Some Fixture.entries_only /\
  Main.decode_RawCliOutput Fixture.entries_only = None /\
  snd (Main.listDirectory Fixture.parse "xls" "/tmp"
         [Main.stdout_data Fixture.entries_only_text; Main.close (Some 0)])
  = Some (Js.Resolved {| Main.path := Js.Undefined; Main.entries := [] |}).
Proof. repeat split. Qed.

(** C7. The [listDirectory] that documents its flags spawns the tool once,
    with [--format json -a -l] and then the directory; the other copy of the
    main process passes [--json] in place of [--format json]. *)
Theorem C7_spawn_arguments :
  (forall (parse : string -> option Js.Value) (xlsPath dirPath : string)
          (events : list Main.ChildEvent),
      fst (Main.listDirectory parse xlsPath dirPath events)
      = [ {| Main.command := xlsPath;
             Main.args := ["--format"; "json"; "-a"; "-l"; dirPath] |} ])
  /\ fst (MainLegacy.listDirectory Fixture.parse "xls" "/tmp" [Main.close (Some 0)])
     = [ {| Main.command := "xls"; Main.args := ["--json"; "-a"; "-l"; "/tmp"] |} ]
  /\ fst (MainLegacy.listDirectory Fixture.parse "xls" "/tmp" [Main.close (Some 0)])
     <> fst (Main.listDirectory Fixture.parse "xls" "/tmp" [Main.close (Some 0)]).
Proof. repeat split; discriminate. Qed.


(** * Properties of the renderer *)

Section NavigationController.

Import Renderer.

Variable localeCompare : string -> string -> Z.
Variable toFixed1 : Z -> Z -> string.
Variable toLocaleString : string -> string.
Variable home : string.

Local Abbreviation run := (Renderer.run localeCompare toFixed1 toLocaleString home).
Local Abbreviation run_all := (Renderer.run_all localeCompare toFixed1 toLocaleString home).

(** *** The cursor after a push *)

Lemma index_last {A : Type} (a : list A) (x : A) :
  index (a ++ [x]) (Z.of_nat (length (a ++ [x])) - 1) = Some x.
Proof.
  unfold index. rewrite length_app. simpl length.
  replace (Z.of_nat (length a + 1) - 1) with (Z.of_nat (length a)) by lia.
  destruct (Z.ltb_spec (Z.of_nat (length a)) 0) as [H|_]; [lia|].
  rewrite Nat2Z.id. rewrite lookup_app_r by lia.
  replace (length a - length a)%nat with 0%nat by lia. reflexivity.
Qed.

Lemma record_history_at_cursor (s : NavigationState) :
  at_cursor (record_history s) = Some (currentPath s).
Proof. unfold at_cursor, record_history; simpl. apply index_last. Qed.

Lemma record_history_in_range (s : NavigationState) :
  cursor_in_range (record_history s).
Proof.
  right. unfold record_history; simpl. rewrite length_app. simpl length. lia.
Qed.

(** *** One operation *)

Lemma run_in_range (op : Operation) (result : Js.Settled DirectoryListing) (p : Page) :
  cursor_in_range (nav p) -> cursor_in_range (nav (run op result p)).
Proof.
  intros Hp. unfold Renderer.run, finish.
  destruct op as [target| | | |]; simpl.
  - destruct result; [apply record_history_in_range | exact Hp].
  - unfold btnBack_click.
    destruct (Z.ltb_spec 0 (historyIndex (nav p))) as [Hpos|Hle]; simpl.
    + assert (cursor_in_range
                {| currentPath := currentPath (nav p);
                   navigationHistory := navigationHistory (nav p);
                   historyIndex := historyIndex (nav p) - 1 |}) as Hs.
      { destruct Hp as [[_ Hi]|Hi]; [lia|]. right; simpl; lia. }
      destruct result; [|exact Hs].
      destruct Hs as [[Hh Hi]|Hi]; [left|right]; simpl in *; auto.
    + exact Hp.
  - destruct result; [apply record_history_in_range | exact Hp].
  - destruct result; [|exact Hp].
    destruct Hp as [[Hh Hi]|Hi]; [left|right]; simpl in *; auto.
  - destruct result; [apply record_history_in_range | exact Hp].
Qed.

Lemma run_all_in_range (steps : list (Operation * Js.Settled DirectoryListing))
    (p : Page) :
  cursor_in_range (nav p) -> cursor_in_range (nav (run_all steps p)).
Proof.
  revert p. induction steps as [|[op result] steps IH]; intros p Hp; [exact Hp|].
  simpl. apply IH. apply run_in_range. exact Hp.
Qed.

Lemma initial_in_range : cursor_in_range (nav initial_page).
Proof. left. split; reflexivity. Qed.

(** C3. From history [[A; B; C]] with the cursor on [C], going back and
    then completing a recorded navigation whose listing is at [D] leaves
    history [[A; B; D]] with the cursor at 2: [C] is dropped.  The answer to
    the replay in between, and the path that was asked for, do not matter. *)
Theorem C3_history_truncation (A B C D current asked : string) (d : Dom)
    (replayed : Js.Settled DirectoryListing) (found : list FileEntry) :
  let p0 := {| nav := {| currentPath := current;
                         navigationHistory := [A; B; C];
                         historyIndex := 2 |};
               dom := d |} in
  let p1 := run goBack replayed p0 in
  let p2 := run (navigate asked) (Js.Resolved {| path := D; entries := found |}) p1 in
  navigationHistory (nav p2) = [A; B; D] /\ historyIndex (nav p2) = 2.
Proof. destruct replayed; split; reflexivity. Qed.

(** C4 (amended). After any operation of any session the cursor is [-1] on
    an empty history and a valid position otherwise.  When the operation's
    listing succeeded: after a recording navigation ([navigate], [goUp],
    [goHome]) the entry under the cursor is the current path; after a replay
    ([goBack] with a previous entry, [refresh]) the current path is the
    reported one and history is as before, so the entry under the cursor is
    the current path exactly when the tool reported the path stored there. *)
Theorem C4_navigation_invariant
    (steps : list (Operation * Js.Settled DirectoryListing))
    (op : Operation) (result : Js.Settled DirectoryListing) :
  let p := run_all steps initial_page in
  let q := run op result p in
  cursor_in_range (nav q) /\
  forall listing : DirectoryListing,
    result = Js.Resolved listing ->
    match op with
    | navigate _ | goUp | goHome => at_cursor (nav q) = Some (currentPath (nav q))
    | goBack =>
        0 < historyIndex (nav p) ->
        currentPath (nav q) = path listing /\
        navigationHistory (nav q) = navigationHistory (nav p) /\
        historyIndex (nav q) = historyIndex (nav p) - 1 /\
        (at_cursor (nav q) = Some (currentPath (nav q))
         <-> index (navigationHistory (nav p)) (historyIndex (nav p) - 1)
             = Some (path listing))
    | refresh =>
        currentPath (nav q) = path listing /\
        navigationHistory (nav q) = navigationHistory (nav p) /\
        historyIndex (nav q) = historyIndex (nav p) /\
        (at_cursor (nav q) = Some (currentPath (nav q))
         <-> at_cursor (nav p) = Some (path listing))
    end.
Proof.
  intros p q. split.
  - apply run_in_range, run_all_in_range, initial_in_range.
  - intros listing ->. subst q. generalize p. clear p. intros p.
    destruct op as [target| | | |]; unfold Renderer.run, finish; simpl.
    + apply record_history_at_cursor.
    + intros Hpos. unfold btnBack_click.
      destruct (Z.ltb_spec 0 (historyIndex (nav p))) as [_|Hle]; [|lia].
      simpl. unfold at_cursor. simpl. repeat split; auto.
    + apply record_history_at_cursor.
    + unfold at_cursor. simpl. repeat split; auto.
    + apply record_history_at_cursor.
Qed.

(** C5 (amended). With the cursor at 0 or below, the back listener asks
    for no listing and leaves the page, navigation state included, exactly
    as it was; nothing is reported. *)
Theorem C5_goBack_without_history (p : Page) (result : Js.Settled DirectoryListing) :
  historyIndex (nav p) <= 0 ->
  start home goBack p = (p, None) /\ run goBack result p = p.
Proof.
  intros Hle. unfold Renderer.run, finish, start, btnBack_click.
  destruct (Z.ltb_spec 0 (historyIndex (nav p))) as [Hpos|_]; [lia|].
  split; reflexivity.
Qed.

(** C10. When the back listener runs with the cursor at 1 or above and the
    replayed listing fails, the cursor has moved back by one while the
    current path and the history are as before. *)
Theorem C10_failed_goBack_keeps_decrement (p : Page) (err : Js.Error) :
  1 <= historyIndex (nav p) ->
  let q := run goBack (Js.Rejected err) p in
  historyIndex (nav q) = historyIndex (nav p) - 1
  /\ currentPath (nav q) = currentPath (nav p)
  /\ navigationHistory (nav q) = navigationHistory (nav p).
Proof.
  intros Hpos q. subst q. unfold Renderer.run, finish, start, btnBack_click.
  destruct (Z.ltb_spec 0 (historyIndex (nav p))) as [_|Hle]; [|lia].
  repeat split.
Qed.

End NavigationController.

Lemma C5_goBack_without_history_witness :
  Fixture.start Renderer.goBack Renderer.initial_page = (Renderer.initial_page, None)
  /\ Fixture.run Renderer.goBack (Fixture.failure "unused") Renderer.initial_page
     = Renderer.initial_page.
Proof.
  apply (C5_goBack_without_history Fixture.code_unit_compare Fixture.toFixed1
           (fun iso => iso) "/home/u" Renderer.initial_page).
  simpl. lia.
Defined.

(** C5, as stated, fails: at the initial state the back listener returns
    without asking for a listing, and the page shows no error. *)
Lemma C5_goBack_reports_no_error :
  Renderer.historyIndex (Renderer.nav Renderer.initial_page) <= 0 /\
  snd (Fixture.start Renderer.goBack Renderer.initial_page) = None /\
  Renderer.reported_error
    (Fixture.run Renderer.goBack (Fixture.failure "unused") Renderer.initial_page)
  = None.
Proof. repeat split. simpl. lia. Qed.

Lemma C10_failed_goBack_keeps_decrement_witness :
  let p := Fixture.nav_at "/b" ["/a"; "/b"] 1 in
  let q := Fixture.run Renderer.goBack (Fixture.failure "gone") p in
  Renderer.historyIndex (Renderer.nav q) = 0
  /\ Renderer.currentPath (Renderer.nav q) = "/b"
  /\ Renderer.navigationHistory (Renderer.nav q) = ["/a"; "/b"].
Proof.
  apply (C10_failed_goBack_keeps_decrement Fixture.code_unit_compare Fixture.toFixed1
           (fun iso => iso) "/home/u" (Fixture.nav_at "/b" ["/a"; "/b"] 1)).
  simpl. lia.
Defined.

Lemma C4_navigation_invariant_witness :
  let q := Fixture.run (Renderer.navigate "/b") (Fixture.listing "/b" [])
             (Fixture.run_all [(Renderer.navigate "/a", Fixture.listing "/a" [])]
                Renderer.initial_page) in
  Renderer.cursor_in_range (Renderer.nav q)
  /\ Renderer.at_cursor (Renderer.nav q) = Some (Renderer.currentPath (Renderer.nav q)).
Proof.
  destruct (C4_navigation_invariant Fixture.code_unit_compare Fixture.toFixed1
              (fun iso => iso) "/home/u"
              [(Renderer.navigate "/a", Fixture.listing "/a" [])]
              (Renderer.navigate "/b") (Fixture.listing "/b" [])) as [Hrange Hcursor].
  split; [exact Hrange | exact (Hcursor _ eq_refl)].
Defined.

(** C4, as stated, fails.  First session: a refresh answered with another
    authoritative path.  Second session: a failed step back followed by a
    refresh the tool answers with the very path it was asked for.  Both end
    on a committed navigation with the current path not under the cursor. *)
Lemma C4_replay_breaks_cursor_equation :
  (let q := Fixture.run_all
              [(Renderer.navigate "/tmp", Fixture.listing "/tmp" []);
               (Renderer.refresh, Fixture.listing "/private/tmp" [])]
              Renderer.initial_page in
   Renderer.at_cursor (Renderer.nav q) = Some "/tmp" /\
   Renderer.currentPath (Renderer.nav q) = "/private/tmp" /\
   Renderer.at_cursor (Renderer.nav q) <> Some (Renderer.currentPath (Renderer.nav q)))
  /\
  (let q := Fixture.run_all
              [(Renderer.navigate "/a", Fixture.listing "/a" []);
               (Renderer.navigate "/b", Fixture.listing "/b" []);
               (Renderer.goBack, Fixture.failure "gone");
               (Renderer.refresh, Fixture.listing "/b" [])]
              Renderer.initial_page in
   Renderer.at_cursor (Renderer.nav q) = Some "/a" /\
   Renderer.currentPath (Renderer.nav q) = "/b" /\
   Renderer.at_cursor (Renderer.nav q) <> Some (Renderer.currentPath (Renderer.nav q))).
Proof. repeat split; discriminate. Qed.

(** The first end-to-end scenario of the specification: the directory [a]
    is shown above the file [b.txt], whose size reads [10 B]. *)
Example display_scenario :
  match Renderer.container (Renderer.dom
          (Fixture.run (Renderer.navigate "/home/u")
             (Fixture.listing "/home/u"
                [Fixture.entry "b.txt" Main.file; Fixture.entry "a" Main.directory])
             Renderer.initial_page)) with
  | Renderer.Items items =>
      map (fun i => (Renderer.name (Renderer.item_entry i), Renderer.item_size i)) items
  | _ => []
  end = [("a", "-"); ("b.txt", "10 B")].
Proof. reflexivity. Qed.

(** Going up from the root stays at the root. *)
Example parent_of_root : Renderer.parent_of "/" = "/" /\ Renderer.parent_of "/a/b" = "/a".
Proof. split; reflexivity. Qed.

(** * Display order *)

Section InsertionSort.

Import Renderer.

Context {A : Type}.
Variable cmp : A -> A -> Z.

Local Abbreviation before := (Renderer.before cmp).

Hypothesis before_total : forall x y, before x y \/ before y x.
Hypothesis before_trans : forall x y z, before x y -> before y z -> before x z.

Lemma insert_by_perm (x : A) (a : list A) : insert_by cmp x a ≡ₚ x :: a.
Proof.
  induction a as [|y a IH]; simpl; [reflexivity|].
  destruct (cmp x y <=? 0); [reflexivity|].
  rewrite IH. apply perm_swap.
Qed.

Lemma sort_by_perm (a : list A) : sort_by cmp a ≡ₚ a.
Proof.
  induction a as [|x a IH]; simpl; [reflexivity|].
  unfold sort_by in *. simpl. rewrite insert_by_perm. now rewrite IH.
Qed.

Lemma insert_by_sorted (x : A) (a : list A) :
  StronglySorted before a -> StronglySorted before (insert_by cmp x a).
Proof.
  induction 1 as [|y a Ha IH Hy]; simpl.
  - repeat constructor.
  - destruct (Z.leb_spec (cmp x y) 0) as [Hxy|Hyx].
    + constructor; [constructor; assumption|].
      constructor; [exact Hxy|].
      eapply Forall_impl; [exact Hy|]. intros z Hz. exact (before_trans x y z Hxy Hz).
    + constructor; [exact IH|].
      rewrite insert_by_perm. constructor; [|exact Hy].
      destruct (before_total x y) as [H|H]; [unfold Renderer.before in H; lia | exact H].
Qed.

Lemma sort_by_sorted (a : list A) : StronglySorted before (sort_by cmp a).
Proof.
  induction a as [|x a IH]; [constructor|].
  unfold sort_by in *. simpl. apply insert_by_sorted. exact IH.
Qed.

Lemma sorted_lookup (R : A -> A -> Prop) (a : list A) (i j : nat) (x y : A) :
  StronglySorted R a -> (i < j)%nat -> a !! i = Some x -> a !! j = Some y -> R x y.
Proof.
  intros Ha. revert i j. induction Ha as [|z a Ha IH Hz]; intros i j Hij Hi Hj.
  - discriminate.
  - destruct j as [|j]; [lia|]. simpl in Hj.
    destruct i as [|i]; simpl in Hi.
    + injection Hi as ->. rewrite Forall_forall in Hz.
      apply Hz. eapply list_elem_of_lookup_2. exact Hj.
    + apply (IH i j); [lia | exact Hi | exact Hj].
Qed.

End InsertionSort.

Section PresentationFormatter.

Import Renderer.

Variable localeCompare : string -> string -> Z.
Variable toFixed1 : Z -> Z -> string.
Variable toLocaleString : string -> string.

(** [localeCompare] is a consistent comparator: any two strings are
    comparable, and the order is transitive. *)
Hypothesis localeCompare_total :
  forall a b, localeCompare a b <= 0 \/ localeCompare b a <= 0.
Hypothesis localeCompare_trans :
  forall a b c, localeCompare a b <= 0 -> localeCompare b c <= 0 ->
                localeCompare a c <= 0.

Local Abbreviation compare := (compareEntries localeCompare).

Lemma compareEntries_total (a b : FileEntry) :
  before compare a b \/ before compare b a.
Proof.
  unfold before, compareEntries.
  destruct (is_directory a), (is_directory b); simpl; try lia.
  - apply localeCompare_total.
  - apply localeCompare_total.
Qed.

Lemma compareEntries_trans (a b c : FileEntry) :
  before compare a b -> before compare b c -> before compare a c.
Proof.
  unfold before, compareEntries.
  destruct (is_directory a), (is_directory b), (is_directory c); simpl;
    try lia; apply localeCompare_trans.
Qed.

Lemma is_directory_type (e : FileEntry) : is_directory e = true <-> type e = directory.
Proof. unfold is_directory. destruct (type e); split; congruence. Qed.

Lemma resume_displays_sorted (flag : bool) (listing : DirectoryListing) (p : Page) :
  displayed (container (dom (loadDirectory_resume localeCompare toFixed1 toLocaleString
                               flag (Js.Resolved listing) p)))
  = sorted_entries localeCompare (entries listing).
Proof.
  simpl.
  destruct (sorted_entries localeCompare (entries listing)) as [|e es]; [reflexivity|].
  simpl. f_equal. rewrite map_map. simpl. apply map_id.
Qed.

(** C8. The entries a successful [loadDirectory] puts on the page are those
    of the listing, every directory above every entry of another kind
    whatever the names, and two entries of the same kind in the order
    [localeCompare] gives their names. *)
Theorem C8_display_order (flag : bool) (listing : DirectoryListing) (p : Page) :
  let shown :=
    displayed (container (dom (loadDirectory_resume localeCompare toFixed1
                                 toLocaleString flag (Js.Resolved listing) p))) in
  shown ≡ₚ entries listing /\
  forall (i j : nat) (a b : FileEntry),
    (i < j)%nat -> shown !! i = Some a -> shown !! j = Some b ->
    (type b = directory -> type a = directory) /\
    (type a = type b -> localeCompare (name a) (name b) <= 0).
Proof.
  intros shown. subst shown. rewrite resume_displays_sorted.
  split; [apply sort_by_perm|].
  intros i j a b Hij Ha Hb.
  assert (before compare a b) as Hab.
  { apply (sorted_lookup (before compare)
             (sorted_entries localeCompare (entries listing)) i j a b); auto.
    apply sort_by_sorted; [exact compareEntries_total | exact compareEntries_trans]. }
  unfold before, compareEntries in Hab. split.
  - intros Hb_dir. apply is_directory_type in Hb_dir. apply is_directory_type.
    rewrite Hb_dir in Hab. destruct (is_directory a); [reflexivity|]. simpl in Hab. lia.
  - intros Hsame.
    assert (is_directory a = is_directory b) as Hd
      by (unfold is_directory; rewrite Hsame; reflexivity).
    rewrite Hd in Hab. destruct (is_directory b); simpl in Hab; exact Hab.
Qed.

End PresentationFormatter.


Lemma code_unit_compare_le (a b : string) :
  Fixture.code_unit_compare a b <= 0 <-> String.le a b.
Proof.
  unfold Fixture.code_unit_compare, String.le, String.leb.
  destruct (String.compare a b); simpl; split; intros H; try lia; try exact I;
    destruct H.
Qed.

Lemma code_unit_compare_total (a b : string) :
  Fixture.code_unit_compare a b <= 0 \/ Fixture.code_unit_compare b a <= 0.
Proof.
  rewrite !code_unit_compare_le. apply String.le_total.
Qed.

Lemma code_unit_compare_trans (a b c : string) :
  Fixture.code_unit_compare a b <= 0 -> Fixture.code_unit_compare b c <= 0 ->
  Fixture.code_unit_compare a c <= 0.
Proof.
  rewrite !code_unit_compare_le. intros Hab Hbc.
  exact (transitivity Hab Hbc).
Qed.

Lemma C8_display_order_witness :
  let shown :=
    Renderer.displayed (Renderer.container (Renderer.dom
      (Renderer.loadDirectory_resume Fixture.code_unit_compare Fixture.toFixed1
         (fun iso => iso) true
         (Fixture.listing "/home/u"
            [Fixture.entry "b.txt" Main.file; Fixture.entry "a" Main.directory])
         Renderer.initial_page))) in
  shown ≡ₚ [Fixture.entry "b.txt" Main.file; Fixture.entry "a" Main.directory] /\
  forall (i j : nat) (a b : Renderer.FileEntry),
    (i < j)%nat -> shown !! i = Some a -> shown !! j = Some b ->
    (Renderer.type b = Main.directory -> Renderer.type a = Main.directory) /\
    (Renderer.type a = Renderer.type b ->
     Fixture.code_unit_compare (Renderer.name a) (Renderer.name b) <= 0).
Proof.
  exact (C8_display_order Fixture.code_unit_compare Fixture.toFixed1 (fun iso => iso)
           code_unit_compare_total code_unit_compare_trans true
           {| Renderer.path := "/home/u";
              Renderer.entries := [Fixture.entry "b.txt" Main.file;
                                   Fixture.entry "a" Main.directory] |}
           Renderer.initial_page).
Defined.

(** * A failed listing, end to end *)

Section EndToEnd.

Import Renderer.

Variable JSON_parse : string -> option Js.Value.
Variable xlsPath : string.
Variable localeCompare : string -> string -> Z.
Variable toFixed1 : Z -> Z -> string.
Variable toLocaleString : string -> string.
Variable home : string.
(** The [Error] the bridge rejects with in the renderer when the handler in
    the main process rejected with the given one. *)
Variable remote : Js.Error -> Js.Error.

(** C6. When the child exits with a nonzero code, [listDirectory] rejects,
    and the navigation that asked for the listing leaves the current path,
    the history and the cursor as they were and puts the error on the
    page. *)
Theorem C6_failed_navigation_is_atomic (target : string)
    (data rest : list Main.ChildEvent) (code : Z) (p : Page) :
  forallb Main.is_data data = true ->
  code <> 0 ->
  exists err : Js.Error,
    snd (Main.listDirectory JSON_parse xlsPath target
           (data ++ Main.close (Some code) :: rest)) = Some (Js.Rejected err)
    /\ Js.message err
       = "xls exited with code " +:+ Js.show code +:+ ": " +:+ Main.stderr_of data
    /\ let q := Renderer.run localeCompare toFixed1 toLocaleString home
                  (navigate target) (Js.Rejected (remote err)) p in
       nav q = nav p
       /\ reported_error q = Some ("Error: " +:+ Js.toString (remote err)).
Proof.
  intros Hdata Hcode.
  exists (Js.mkError ("xls exited with code " +:+ Js.show code +:+ ": "
                      +:+ Main.stderr_of data)).
  split; [|split; [reflexivity | split; reflexivity]].
  apply first_terminal_decides; [exact Hdata|].
  destruct code as [|c|c]; [congruence | reflexivity | reflexivity].
Qed.

End EndToEnd.

Lemma C6_failed_navigation_is_atomic_witness :
  let remote e :=
    Js.mkError ("Error invoking remote method 'list-directory': " +:+ Js.toString e) in
  exists err : Js.Error,
    snd (Main.listDirectory Fixture.parse "xls" "/root"
           ([Main.stderr_data "permission denied"] ++ Main.close (Some 2) :: []))
    = Some (Js.Rejected err)
    /\ Js.message err = "xls exited with code 2: permission denied"
    /\ let q := Fixture.run (Renderer.navigate "/root") (Js.Rejected (remote err))
                  (Fixture.nav_at "/home/u" ["/home/u"] 0) in
       Renderer.nav q = Renderer.nav (Fixture.nav_at "/home/u" ["/home/u"] 0)
       /\ Renderer.reported_error q = Some ("Error: " +:+ Js.toString (remote err)).
Proof.
  intros remote.
  apply (C6_failed_navigation_is_atomic Fixture.parse "xls" Fixture.code_unit_compare
           Fixture.toFixed1 (fun iso => iso) "/home/u" remote "/root"
           [Main.stderr_data "permission denied"] [] 2
           (Fixture.nav_at "/home/u" ["/home/u"] 0)).
  - reflexivity.
  - lia.
Defined.


(** * Further properties of the main process *)

Section EntryEdgeCases.

Import Main.

(** Whatever the entry held under [permissions], the transformed entry has
    a truthy one: the value itself when it was truthy, the placeholder [-]
    when it was absent, [null], empty, [false] or zero. *)
Theorem permissions_never_empty (entry : Js.Value) (t : TransformedEntry) :
  transformEntry entry = Some t ->
  Js.truthy (permissions t) = true /\
  forall held : Js.Value,
    Js.get entry "permissions" = Some held ->
    permissions t = if Js.truthy held then held else Js.Str "-".
Proof.
  unfold transformEntry. intros H.
  destruct (Js.get entry "name") as [n|]; [|discriminate].
  destruct (Js.get entry "is_dir") as [d|]; [|discriminate].
  destruct (Js.get entry "is_symlink") as [l|]; [|discriminate].
  destruct (Js.get entry "size") as [s|]; [|discriminate].
  destruct (Js.get entry "modified") as [m|]; [|discriminate].
  destruct (Js.get entry "permissions") as [p|]; [|discriminate].
  simpl in H. injection H as <-. simpl. unfold Js.or_else. split.
  - destruct (Js.truthy p) eqn:Hp; [exact Hp | reflexivity].
  - intros held [= <-]. reflexivity.
Qed.

Lemma permissions_never_empty_witness :
  Js.truthy (Js.Str "-") = true /\
  forall held : Js.Value,
    Js.get Fixture.raw_dir_link "permissions" = Some held ->
    Js.Str "-" = if Js.truthy held then held else Js.Str "-".
Proof.
  exact (permissions_never_empty Fixture.raw_dir_link
           {| name := Js.Str "a"; type := directory; size := Js.Number 0;
              modified := Js.Str "2024-01-01T00:00:00Z";
              permissions := Js.Str "-" |} eq_refl).
Defined.

(** The arrow function throws on [null] and [undefined] only.  A boolean,
    number, string or array among the entries is not an error: it comes out
    as a file without name, size or date. *)
Theorem transformEntry_off_shape :
  (forall v : Js.Value, transformEntry v = None <-> nullish v = true)
  /\ (forall (b : bool) (n : Z) (s : string) (items : list Js.Value),
        transformEntry (Js.Bool b) = Some blank_entry /\
        transformEntry (Js.Number n) = Some blank_entry /\
        transformEntry (Js.Str s) = Some blank_entry /\
        transformEntry (Js.Array items) = Some blank_entry).
Proof.
  split.
  - intros v. destruct v; simpl; split; intros H; try reflexivity; discriminate.
  - intros b n s items. repeat split.
Qed.

(** An object entry that lacks [is_dir], [is_symlink] and [permissions] is
    taken for a file with permissions [-]; its other fields are passed on as
    found, [undefined] when missing. *)
Theorem transformEntry_missing_flags (fields : list (string * Js.Value)) :
  Js.own_property "is_dir" fields = Js.Undefined ->
  Js.own_property "is_symlink" fields = Js.Undefined ->
  Js.own_property "permissions" fields = Js.Undefined ->
  transformEntry (Js.Object fields)
  = Some {| name := Js.own_property "name" fields;
            type := file;
            size := Js.own_property "size" fields;
            modified := Js.own_property "modified" fields;
            permissions := Js.Str "-" |}.
Proof.
  intros Hd Hl Hp. unfold transformEntry; simpl. rewrite Hd, Hl, Hp. reflexivity.
Qed.

Lemma transformEntry_missing_flags_witness :
  transformEntry (Js.Object Fixture.nameless_flags)
  = Some {| name := Js.Str "x"; type := file; size := Js.Undefined;
            modified := Js.Undefined; permissions := Js.Str "-" |}.
Proof.
  exact (transformEntry_missing_flags Fixture.nameless_flags eq_refl eq_refl eq_refl).
Defined.

(** A document the [try] body accepts yields one transformed entry per
    element of [entries], in the same order, under the [path] it holds.
    Nothing else in the document matters: [total] is never read, so a
    document with the same [entries] and [path] gives the same listing. *)
Theorem transform_entry_by_entry (fields : list (string * Js.Value))
    (out : TransformedOutput) :
  transform (Js.Object fields) = Some out ->
  (exists items : list Js.Value,
      Js.own_property "entries" fields = Js.Array items /\
      path out = Js.own_property "path" fields /\
      Forall2 (fun item t => transformEntry item = Some t) items (entries out))
  /\ forall fields' : list (string * Js.Value),
       Js.own_property "entries" fields' = Js.own_property "entries" fields ->
       Js.own_property "path" fields' = Js.own_property "path" fields ->
       transform (Js.Object fields') = Some out.
Proof.
  unfold transform; simpl. intros H. split.
  - destruct (Js.own_property "entries" fields) as [| | | | |items|]; try discriminate.
    destruct (mapM transformEntry items) as [ts|] eqn:Hts; [|discriminate].
    simpl in H. injection H as <-. exists items. repeat split.
    apply mapM_Some_1. exact Hts.
  - intros fields' -> ->. exact H.
Qed.

Lemma transform_entry_by_entry_witness :
  transform (Js.Object [("entries", Js.Array [Js.Object Fixture.nameless_flags]);
                        ("path", Js.Str "/d")])
  = Some {| path := Js.Str "/d";
            entries := [ {| name := Js.Str "x"; type := file; size := Js.Undefined;
                            modified := Js.Undefined; permissions := Js.Str "-" |} ] |}.
Proof.
  destruct (transform_entry_by_entry Fixture.one_entry_doc
              {| path := Js.Str "/d";
                 entries := [ {| name := Js.Str "x"; type := file;
                                 size := Js.Undefined; modified := Js.Undefined;
                                 permissions := Js.Str "-" |} ] |} eq_refl)
    as [_ Hsame].
  apply Hsame; reflexivity.
Defined.

End EntryEdgeCases.


Section StreamsAndCopies.

Import Main.

Variable JSON_parse : string -> option Js.Value.
Variable xlsPath : string.

(** What a [close] decides on a pending call. *)
Lemma close_on_pending (code : option Z) (out err : string) :
  promise (handle JSON_parse {| stdout := out; stderr := err; promise := None |}
             (close code))
  = Some match code with
         | Some 0 =>
             match JSON_parse out ≫= transform with
             | Some listing => Js.Resolved listing
             | None => Js.Rejected (Js.mkError ("Failed to parse JSON: " +:+ out))
             end
         | _ => Js.Rejected (Js.mkError ("xls exited with code " +:+ show_code code
                                         +:+ ": " +:+ err))
         end.
Proof.
  destruct code as [[| |]|]; simpl; unfold on_close; simpl;
    try destruct (JSON_parse out ≫= transform); reflexivity.
Qed.

(** Only the text accumulated from the stream that matters reaches the
    outcome: with exit code 0 what the [stdout] buffer holds, whatever came
    on standard error; with another exit code the code and what the [stderr]
    buffer holds, whatever came on standard output; on a spawn error
    neither.  A buffer holds the texts of its [data] events, each converted
    on its own, one after the other; two runs that add up to the same text
    settle alike. *)
Theorem only_the_relevant_stream_counts (dirPath : string)
    (data1 data2 rest1 rest2 : list ChildEvent) :
  forallb is_data data1 = true ->
  forallb is_data data2 = true ->
  let settled data rest terminal :=
    snd (listDirectory JSON_parse xlsPath dirPath (data ++ terminal :: rest)) in
  (stdout_of data1 = stdout_of data2 ->
   settled data1 rest1 (close (Some 0)) = settled data2 rest2 (close (Some 0)))
  /\ (stderr_of data1 = stderr_of data2 ->
      forall code : option Z,
        code <> Some 0 ->
        settled data1 rest1 (close code) = settled data2 rest2 (close code))
  /\ (forall err : Js.Error,
        settled data1 rest1 (error err) = settled data2 rest2 (error err)).
Proof.
  intros H1 H2 settled. subst settled. cbv beta. repeat split.
  - intros Hout.
    rewrite (first_terminal_decides JSON_parse xlsPath dirPath data1 rest1 _ _ H1
               (close_on_pending (Some 0) _ _)).
    rewrite (first_terminal_decides JSON_parse xlsPath dirPath data2 rest2 _ _ H2
               (close_on_pending (Some 0) _ _)).
    rewrite Hout. reflexivity.
  - intros Herr code Hcode.
    rewrite (first_terminal_decides JSON_parse xlsPath dirPath data1 rest1 _ _ H1
               (close_on_pending code _ _)).
    rewrite (first_terminal_decides JSON_parse xlsPath dirPath data2 rest2 _ _ H2
               (close_on_pending code _ _)).
    rewrite Herr. destruct code as [[| |]|]; try reflexivity. congruence.
  - intros err.
    rewrite (first_terminal_decides JSON_parse xlsPath dirPath data1 rest1
               (error err) _ H1 eq_refl).
    rewrite (first_terminal_decides JSON_parse xlsPath dirPath data2 rest2
               (error err) _ H2 eq_refl).
    reflexivity.
Qed.

(** *** The copy without the transformation *)

Lemma legacy_handle_data (data : list ChildEvent) (c : MainLegacy.Call) :
  forallb is_data data = true ->
  fold_left (MainLegacy.handle JSON_parse) data c
  = {| MainLegacy.stdout := MainLegacy.stdout c +:+ stdout_of data;
       MainLegacy.stderr := MainLegacy.stderr c +:+ stderr_of data;
       MainLegacy.promise := MainLegacy.promise c |}.
Proof.
  revert c. induction data as [|ev data IH]; intros c H.
  - simpl. rewrite !append_empty_r. destruct c; reflexivity.
  - simpl in H. apply andb_prop in H as [Hev Hdata].
    cbn [fold_left]. rewrite (IH _ Hdata).
    destruct ev; simpl in Hev; try discriminate Hev;
      cbn [MainLegacy.handle MainLegacy.stdout MainLegacy.stderr MainLegacy.promise
           stdout_of stderr_of foldr];
      rewrite append_assoc; reflexivity.
Qed.

Lemma legacy_settled_for_good (events : list ChildEvent) (c : MainLegacy.Call)
    (s : Js.Settled Js.Value) :
  MainLegacy.promise c = Some s ->
  MainLegacy.promise (fold_left (MainLegacy.handle JSON_parse) events c) = Some s.
Proof.
  revert c. induction events as [|ev events IH]; intros c H; [exact H|].
  simpl. apply IH.
  destruct ev as [d|d|code|err]; simpl; try exact H.
  - unfold MainLegacy.on_close.
    destruct code as [[| |]|];
      try destruct (JSON_parse (MainLegacy.stdout c));
      unfold MainLegacy.settle; rewrite H; exact H.
  - unfold MainLegacy.on_error, MainLegacy.settle. rewrite H. exact H.
Qed.

(** The copy that passes [--json] resolves with the parsed document itself
    whenever the exit code is 0 and the output is JSON of any kind: no entry
    is transformed and no document is refused.  It rejects like the other
    copy on a syntax error, another exit code or a spawn error. *)
Theorem legacy_listDirectory_outcomes (dirPath : string)
    (data rest : list ChildEvent) :
  forallb is_data data = true ->
  let settled terminal :=
    snd (MainLegacy.listDirectory JSON_parse xlsPath dirPath
           (data ++ terminal :: rest)) in
  settled (close (Some 0))
  = Some match JSON_parse (stdout_of data) with
         | Some v => Js.Resolved v
         | None => Js.Rejected (Js.mkError ("Failed to parse JSON: "
                                            +:+ stdout_of data))
         end
  /\ (forall code : option Z,
        code <> Some 0 ->
        settled (close code)
        = Some (Js.Rejected (Js.mkError
                  ("xls exited with code " +:+ show_code code +:+ ": "
                   +:+ stderr_of data))))
  /\ (forall err : Js.Error,
        settled (error err)
        = Some (Js.Rejected (Js.mkError ("Failed to spawn xls: " +:+ Js.message err)))).
Proof.
  intros Hdata settled. subst settled. cbv beta.
  assert (forall terminal s,
             MainLegacy.promise
               (MainLegacy.handle JSON_parse
                  {| MainLegacy.stdout := stdout_of data;
                     MainLegacy.stderr := stderr_of data;
                     MainLegacy.promise := None |} terminal) = Some s ->
             snd (MainLegacy.listDirectory JSON_parse xlsPath dirPath
                    (data ++ terminal :: rest)) = Some s) as Hfirst.
  { intros terminal s Hs. unfold MainLegacy.listDirectory; simpl snd.
    rewrite fold_left_app. simpl fold_left. apply legacy_settled_for_good.
    rewrite (legacy_handle_data data MainLegacy.pending Hdata). exact Hs. }
  repeat split.
  - apply Hfirst. simpl. unfold MainLegacy.on_close; simpl.
    destruct (JSON_parse (stdout_of data)); reflexivity.
  - intros code Hcode. apply Hfirst.
    destruct code as [[| |]|]; try reflexivity. congruence.
  - intros err. apply Hfirst. reflexivity.
Qed.

Lemma copies_step (c : Call) (c' : MainLegacy.Call) (ev : ChildEvent) :
  stdout c = MainLegacy.stdout c' ->
  stderr c = MainLegacy.stderr c' ->
  MainLegacy.agrees (promise c) (MainLegacy.promise c') ->
  stdout (handle JSON_parse c ev) = MainLegacy.stdout (MainLegacy.handle JSON_parse c' ev)
  /\ stderr (handle JSON_parse c ev)
     = MainLegacy.stderr (MainLegacy.handle JSON_parse c' ev)
  /\ MainLegacy.agrees (promise (handle JSON_parse c ev))
       (MainLegacy.promise (MainLegacy.handle JSON_parse c' ev)).
Proof.
  intros Hout Herr Hag.
  destruct c as [o e pr], c' as [o' e' pr']; simpl in Hout, Herr, Hag; subst o' e'.
  destruct ev as [d|d|code|err]; simpl.
  - repeat split; exact Hag.
  - repeat split; exact Hag.
  - unfold on_close, MainLegacy.on_close, settle, MainLegacy.settle; simpl.
    destruct pr as [[out0|e0]|], pr' as [[v0|e0']|]; simpl in Hag; try contradiction;
      try (destruct code as [[| |]|];
           try destruct (JSON_parse o ≫= transform);
           try destruct (JSON_parse o); simpl; intuition; fail).
    destruct code as [[| |]|]; simpl; try (repeat split; fail).
    destruct (JSON_parse o) as [v|]; simpl; [|repeat split].
    destruct (transform v) as [out|] eqn:Hv; simpl; repeat split; eauto.
  - unfold on_error, MainLegacy.on_error, settle, MainLegacy.settle; simpl.
    destruct pr as [[out0|e0]|], pr' as [[v0|e0']|]; simpl in Hag; try contradiction;
      simpl; intuition.
Qed.

(** On the same child the two copies settle together: both stay pending,
    or both reject with the same error, or both resolve and the normalising
    copy's listing is the transform of the document the other returns, or
    the other resolves with a document whose transformation throws and the
    normalising copy rejects it as a parse failure. *)
Theorem copies_agree (dirPath : string) (events : list ChildEvent) :
  MainLegacy.agrees
    (snd (listDirectory JSON_parse xlsPath dirPath events))
    (snd (MainLegacy.listDirectory JSON_parse xlsPath dirPath events)).
Proof.
  unfold listDirectory, MainLegacy.listDirectory; simpl snd.
  assert (forall c c',
             stdout c = MainLegacy.stdout c' ->
             stderr c = MainLegacy.stderr c' ->
             MainLegacy.agrees (promise c) (MainLegacy.promise c') ->
             MainLegacy.agrees
               (promise (fold_left (handle JSON_parse) events c))
               (MainLegacy.promise
                  (fold_left (MainLegacy.handle JSON_parse) events c'))) as Hsim.
  { induction events as [|ev events IH]; intros c c' Hout Herr Hag; [exact Hag|].
    simpl. destruct (copies_step c c' ev Hout Herr Hag) as [Ho [He Ha]].
    apply IH; assumption. }
  apply Hsim; reflexivity || exact I.
Qed.

End StreamsAndCopies.

Lemma only_the_relevant_stream_counts_witness :
  snd (Main.listDirectory Fixture.parse "xls" "/d"
         ([Main.stderr_data "permission "; Main.stderr_data "denied"]
          ++ Main.close (Some 2) :: []))
  = snd (Main.listDirectory Fixture.parse "xls" "/d"
           ([Main.stdout_data "partial"; Main.stderr_data "permission denied"]
            ++ Main.close (Some 2) :: [Main.close (Some 0)])).
Proof.
  destruct (only_the_relevant_stream_counts Fixture.parse "xls" "/d"
              [Main.stderr_data "permission "; Main.stderr_data "denied"]
              [Main.stdout_data "partial"; Main.stderr_data "permission denied"]
              [] [Main.close (Some 0)] eq_refl eq_refl) as [_ [H _]].
  exact (H eq_refl (Some 2) ltac:(discriminate)).
Defined.

Lemma legacy_listDirectory_outcomes_witness :
  snd (MainLegacy.listDirectory Fixture.parse "xls" "/d"
         ([Main.stdout_data Fixture.entries_only_text] ++ Main.close (Some 0) :: []))
  = Some (Js.Resolved Fixture.entries_only).
Proof.
  destruct (legacy_listDirectory_outcomes Fixture.parse "xls" "/d"
              [Main.stdout_data Fixture.entries_only_text] [] eq_refl) as [H _].
  exact H.
Defined.


(** * Further properties of the navigation controller *)

Section HistoryLaws.

Import Renderer.

Variable localeCompare : string -> string -> Z.
Variable toFixed1 : Z -> Z -> string.
Variable toLocaleString : string -> string.
Variable home : string.

Local Abbreviation run := (Renderer.run localeCompare toFixed1 toLocaleString home).
Local Abbreviation run_all := (Renderer.run_all localeCompare toFixed1 toLocaleString home).
Local Abbreviation finish := (Renderer.finish localeCompare toFixed1 toLocaleString).

Lemma take_In {A : Type} (n : nat) (a : list A) (x : A) : In x (take n a) -> In x a.
Proof.
  revert a. induction n as [|n IH]; intros [|y a]; simpl; try tauto.
  intros [H|H]; [left; exact H | right; exact (IH a H)].
Qed.

Lemma slice0_In {A : Type} (stop : Z) (a : list A) (x : A) :
  In x (slice0 stop a) -> In x a.
Proof. unfold slice0. destruct (stop <? 0); apply take_In. Qed.

Lemma slice0_in_range {A : Type} (i : Z) (a : list A) :
  -1 <= i < Z.of_nat (length a) ->
  slice0 (i + 1) a = take (Z.to_nat (i + 1)) a
  /\ length (slice0 (i + 1) a) = Z.to_nat (i + 1).
Proof.
  intros Hi. unfold slice0.
  destruct (Z.ltb_spec (i + 1) 0) as [H|_]; [lia|].
  split; [reflexivity|]. apply length_take_le. lia.
Qed.

Lemma cursor_bounds (s : NavigationState) :
  cursor_in_range s -> -1 <= historyIndex s < Z.of_nat (length (navigationHistory s)).
Proof. intros [[Hh Hi]|Hi]; [rewrite Hh, Hi; simpl; lia | lia]. Qed.

(** A successful operation that records history keeps the entries up to the
    cursor, drops every entry after it, appends the reported path and puts
    the cursor on it, one step further than it was. *)
Theorem recording_truncates_at_cursor (op : Operation) (listing : DirectoryListing)
    (p : Page) (asked : option string) :
  cursor_in_range (nav p) ->
  snd (start home op p) = Some {| requested := asked; addToHistory := true |} ->
  let q := run op (Js.Resolved listing) p in
  navigationHistory (nav q)
  = (take (Z.to_nat (historyIndex (nav p) + 1)) (navigationHistory (nav p))
     ++ [path listing])%list
  /\ historyIndex (nav q) = historyIndex (nav p) + 1
  /\ forall i : Z,
       0 <= i <= historyIndex (nav p) ->
       index (navigationHistory (nav q)) i = index (navigationHistory (nav p)) i.
Proof.
  intros Hrange Hstart q.
  assert (nav q = record_history {| currentPath := path listing;
                                   navigationHistory := navigationHistory (nav p);
                                   historyIndex := historyIndex (nav p) |}) as Hq.
  { subst q. unfold Renderer.run, Renderer.finish.
    destruct op; simpl in Hstart |- *; try reflexivity; try discriminate.
    unfold btnBack_click in Hstart |- *.
    destruct (0 <? historyIndex (nav p)); simpl in Hstart; discriminate. }
  rewrite Hq. unfold record_history; simpl.
  apply cursor_bounds in Hrange.
  destruct (slice0_in_range (historyIndex (nav p)) (navigationHistory (nav p)) Hrange)
    as [Hslice Hlen].
  rewrite Hslice. repeat split.
  - rewrite length_app, <- Hslice, Hlen. simpl. lia.
  - intros i Hi. unfold index.
    destruct (Z.ltb_spec i 0) as [H|_]; [lia|].
    rewrite lookup_app_l by (rewrite <- Hslice, Hlen; lia).
    apply lookup_take_lt. lia.
Qed.

(** When the entry under the cursor is the current path, a successful
    navigation followed by a click on back asks for the path that was
    current before the navigation. *)
Theorem back_after_navigate (target : string) (listing : DirectoryListing) (p : Page) :
  at_cursor (nav p) = Some (currentPath (nav p)) ->
  let q := run (navigate target) (Js.Resolved listing) p in
  snd (start home goBack q)
  = Some {| requested := Some (currentPath (nav p)); addToHistory := false |}.
Proof.
  intros Hcur q. unfold at_cursor, index in Hcur.
  destruct (Z.ltb_spec (historyIndex (nav p)) 0) as [H|Hnonneg]; [discriminate|].
  pose proof (lookup_lt_Some _ _ _ Hcur) as Hlt.
  assert (-1 <= historyIndex (nav p) < Z.of_nat (length (navigationHistory (nav p))))
    as Hrange by lia.
  destruct (slice0_in_range _ _ Hrange) as [Hslice Hlen].
  subst q. unfold Renderer.run, Renderer.finish. simpl. unfold btnBack_click. simpl.
  rewrite length_app, Hlen. simpl length.
  destruct (Z.ltb_spec 0 (Z.of_nat (Z.to_nat (historyIndex (nav p) + 1) + 1) - 1))
    as [_|H]; [|lia].
  simpl. unfold index.
  destruct (Z.ltb_spec (Z.of_nat (Z.to_nat (historyIndex (nav p) + 1) + 1) - 1 - 1) 0)
    as [H|_]; [lia|].
  replace (Z.to_nat (Z.of_nat (Z.to_nat (historyIndex (nav p) + 1) + 1) - 1 - 1))
    with (Z.to_nat (historyIndex (nav p))) by lia.
  rewrite lookup_app_l by (rewrite Hlen; lia).
  rewrite Hslice, lookup_take_lt by lia. rewrite Hcur. reflexivity.
Qed.

(** A listing that fails never changes the current path or the history,
    whatever the operation; the cursor moves only for a step back, by one;
    and when a listing was asked for, the page shows the error. *)
Theorem failed_operation_frame (op : Operation) (err : Js.Error) (p : Page) :
  let q := run op (Js.Rejected err) p in
  currentPath (nav q) = currentPath (nav p)
  /\ navigationHistory (nav q) = navigationHistory (nav p)
  /\ (historyIndex (nav q) = historyIndex (nav p)
      \/ (op = goBack /\ historyIndex (nav q) = historyIndex (nav p) - 1))
  /\ (snd (start home op p) = None \/
      reported_error q = Some ("Error: " +:+ Js.toString err)).
Proof.
  intros q. subst q. unfold Renderer.run, Renderer.finish.
  destruct op; simpl; try (repeat split; auto; fail).
  unfold btnBack_click. destruct (0 <? historyIndex (nav p)); simpl; repeat split; auto.
Qed.

Lemma run_history_In (op : Operation) (result : Js.Settled DirectoryListing)
    (p : Page) (h : string) :
  In h (navigationHistory (nav (run op result p))) ->
  In h (navigationHistory (nav p)) \/ In h (reported_paths [(op, result)]).
Proof.
  assert (forall page flag,
             In h (navigationHistory
                     (nav (loadDirectory_resume localeCompare toFixed1 toLocaleString
                             flag result page))) ->
             In h (navigationHistory (nav page))
             \/ In h (reported_paths [(op, result)])) as Hresume.
  { intros page flag. destruct result as [listing|err]; [|simpl; auto].
    destruct flag; [|simpl; auto].
    simpl. intros H. apply in_app_or in H as [H|[H|[]]].
    - left. exact (slice0_In _ _ _ H).
    - right. left. exact H. }
  unfold Renderer.run, Renderer.finish.
  destruct op; try exact (Hresume _ _).
  simpl start. unfold btnBack_click.
  destruct (0 <? historyIndex (nav p)); [exact (Hresume _ _) | simpl; auto].
Qed.

Lemma run_currentPath (op : Operation) (result : Js.Settled DirectoryListing)
    (p : Page) :
  currentPath (nav (run op result p)) = currentPath (nav p)
  \/ In (currentPath (nav (run op result p))) (reported_paths [(op, result)]).
Proof.
  unfold Renderer.run, Renderer.finish.
  destruct op; simpl;
    try (destruct result; simpl; auto; fail).
  unfold btnBack_click. destruct (0 <? historyIndex (nav p)); simpl; [|auto].
  destruct result; simpl; auto.
Qed.

Lemma session_paths (steps : list (Operation * Js.Settled DirectoryListing)) (p : Page) :
  (forall h, In h (navigationHistory (nav (run_all steps p))) ->
             In h (navigationHistory (nav p)) \/ In h (reported_paths steps))
  /\ (currentPath (nav (run_all steps p)) = currentPath (nav p)
      \/ In (currentPath (nav (run_all steps p))) (reported_paths steps)).
Proof.
  revert p. induction steps as [|[op result] steps IH]; intros p; [simpl; auto|].
  assert (reported_paths ((op, result) :: steps)
          = (reported_paths [(op, result)] ++ reported_paths steps)%list) as ->
    by (unfold reported_paths; simpl; now rewrite app_nil_r).
  simpl Renderer.run_all. destruct (IH (run op result p)) as [IHh IHc]. split.
  - intros h H. apply IHh in H as [H|H].
    + apply run_history_In in H as [H|H]; [left; exact H|].
      right. apply in_or_app. left. exact H.
    + right. apply in_or_app. right. exact H.
  - destruct IHc as [Hc|Hc].
    + rewrite Hc. destruct (run_currentPath op result p) as [H|H]; [left; exact H|].
      right. apply in_or_app. left. exact H.
    + right. apply in_or_app. right. exact Hc.
Qed.

(** History only ever holds paths the tool reported in the session, never a
    path that was merely asked for; the current path is the initial [/] or
    such a reported path. *)
Theorem history_holds_reported_paths
    (steps : list (Operation * Js.Settled DirectoryListing)) :
  let p := run_all steps initial_page in
  (forall h : string,
      In h (navigationHistory (nav p)) -> In h (reported_paths steps))
  /\ (currentPath (nav p) = "/" \/ In (currentPath (nav p)) (reported_paths steps)).
Proof.
  intros p. subst p. destruct (session_paths steps initial_page) as [Hh Hc]. split.
  - intros h H. apply Hh in H as [[]|H]. exact H.
  - exact Hc.
Qed.

End HistoryLaws.

Lemma recording_truncates_at_cursor_witness :
  let p := Fixture.nav_at "/b" ["/a"; "/b"; "/c"; "/d"] 1 in
  let q := Fixture.run Renderer.goUp (Fixture.listing "/" []) p in
  Renderer.navigationHistory (Renderer.nav q) = ["/a"; "/b"; "/"]
  /\ Renderer.historyIndex (Renderer.nav q) = 2.
Proof.
  destruct (recording_truncates_at_cursor Fixture.code_unit_compare Fixture.toFixed1
              (fun iso => iso) "/home/u" Renderer.goUp
              {| Renderer.path := "/"; Renderer.entries := [] |}
              (Fixture.nav_at "/b" ["/a"; "/b"; "/c"; "/d"] 1) (Some "/"))
    as [Hh [Hi _]].
  - right. simpl. lia.
  - reflexivity.
  - split; [exact Hh | exact Hi].
Defined.

Lemma back_after_navigate_witness :
  let q := Fixture.run (Renderer.navigate "/a/x") (Fixture.listing "/a/x" [])
             (Fixture.nav_at "/a" ["/a"] 0) in
  snd (Fixture.start Renderer.goBack q)
  = Some {| Renderer.requested := Some "/a"; Renderer.addToHistory := false |}.
Proof.
  exact (back_after_navigate Fixture.code_unit_compare Fixture.toFixed1
           (fun iso => iso) "/home/u" "/a/x"
           {| Renderer.path := "/a/x"; Renderer.entries := [] |}
           (Fixture.nav_at "/a" ["/a"] 0) eq_refl).
Defined.

Lemma history_holds_reported_paths_witness :
  In "/private/a"
    (Renderer.reported_paths
       [(Renderer.navigate "/a", Fixture.listing "/private/a" [])]).
Proof.
  destruct (history_holds_reported_paths Fixture.code_unit_compare Fixture.toFixed1
              (fun iso => iso) "/home/u"
              [(Renderer.navigate "/a", Fixture.listing "/private/a" [])]) as [H _].
  apply H. left. reflexivity.
Defined.

(** * Paths *)

Section Paths.

Import Renderer.

Lemma split_slash_nonempty (s : string) : split_slash s <> [].
Proof.
  induction s as [|c s IH]; simpl; [discriminate|].
  destruct (Ascii.eqb c "/"); [discriminate|].
  destruct (split_slash s); [contradiction | discriminate].
Qed.

Lemma join_slash_cons (x : string) (a : list string) :
  a <> [] -> join_slash (x :: a) = x +:+ "/" +:+ join_slash a.
Proof. destruct a; [contradiction | reflexivity]. Qed.

Lemma join_slash_grow (c : ascii) (head : string) (tail : list string) :
  join_slash (String c head :: tail) = String c (join_slash (head :: tail)).
Proof. destruct tail; reflexivity. Qed.

(** Splitting a string at its slashes and joining the pieces with slashes
    gives the string back. *)
Theorem join_split_slash (s : string) : join_slash (split_slash s) = s.
Proof.
  induction s as [|c s IH]; [reflexivity|].
  simpl split_slash. destruct (Ascii.eqb_spec c "/") as [->|Hc].
  - rewrite join_slash_cons by apply split_slash_nonempty.
    rewrite IH. reflexivity.
  - pose proof (split_slash_nonempty s) as Hne.
    destruct (split_slash s) as [|head tail]; [contradiction|].
    rewrite join_slash_grow, IH. reflexivity.
Qed.

Lemma split_slash_app (a b : string) :
  split_slash (a +:+ String "/" b) = (split_slash a ++ split_slash b)%list.
Proof.
  induction a as [|c a IH]; [reflexivity|].
  change (String c a +:+ String "/" b) with (String c (a +:+ String "/" b)).
  simpl split_slash. rewrite IH.
  destruct (Ascii.eqb c "/"); [reflexivity|].
  pose proof (split_slash_nonempty a) as Hne.
  destruct (split_slash a) as [|head tail]; [contradiction | reflexivity].
Qed.

Lemma split_slash_segment (name : string) :
  has_slash name = false -> split_slash name = [name].
Proof.
  induction name as [|c name IH]; [reflexivity|].
  simpl. destruct (Ascii.eqb c "/"); simpl; [discriminate|].
  intros H. rewrite (IH H). reflexivity.
Qed.

Lemma slice0_drop_last {A : Type} (a : list A) (x : A) : slice0 (-1) (a ++ [x]) = a.
Proof.
  unfold slice0. simpl. apply take_app_length'.
  rewrite length_app. simpl. lia.
Qed.

Lemma parent_of_append (dir name : string) :
  has_slash name = false -> parent_of (dir +:+ String "/" name) = or_root dir.
Proof.
  intros Hname. unfold parent_of.
  rewrite split_slash_app, (split_slash_segment name Hname), slice0_drop_last.
  rewrite join_split_slash. reflexivity.
Qed.

(** Going up undoes entering: from any non-empty current path, the parent
    of the path a double click on an entry asks for is that current path,
    as long as the entry's name has no slash in it. *)
Theorem parent_of_child_of (current name : string) :
  current <> "" ->
  has_slash name = false ->
  parent_of (child_of current name) = current.
Proof.
  intros Hcur Hname. unfold child_of.
  destruct (String.eqb_spec current "/") as [->|Hroot].
  - change ("/" +:+ name) with ("" +:+ String "/" name).
    rewrite (parent_of_append "" name Hname). reflexivity.
  - change (current +:+ "/" +:+ name) with (current +:+ String "/" name).
    rewrite (parent_of_append current name Hname). unfold or_root.
    destruct (String.eqb_spec current ""); [contradiction | reflexivity].
Qed.

Lemma parent_of_child_of_witness :
  parent_of (child_of "/" "etc") = "/" /\ parent_of (child_of "/usr" "lib") = "/usr".
Proof.
  split.
  - exact (parent_of_child_of "/" "etc" ltac:(discriminate) eq_refl).
  - exact (parent_of_child_of "/usr" "lib" ltac:(discriminate) eq_refl).
Defined.

(** The path [goUp] asks for is never empty; a path without any slash has
    the root for parent; and a trailing slash counts as an empty last
    segment, so the parent of [p/] is [p] itself (the root when [p] is
    empty). *)
Theorem parent_of_edges (p : string) :
  parent_of p <> ""
  /\ (has_slash p = false -> parent_of p = "/")
  /\ parent_of (p +:+ "/") = or_root p.
Proof.
  repeat split.
  - unfold parent_of, or_root.
    destruct (String.eqb_spec (join_slash (slice0 (-1) (split_slash p))) "") as [_|H];
      [discriminate | exact H].
  - intros Hp. unfold parent_of. rewrite (split_slash_segment p Hp). reflexivity.
  - exact (parent_of_append p "" eq_refl).
Qed.

Lemma parent_of_edges_witness :
  parent_of "notes.txt" = "/" /\ parent_of "/a/b/" = "/a/b".
Proof.
  split.
  - destruct (parent_of_edges "notes.txt") as [_ [H _]]. exact (H eq_refl).
  - destruct (parent_of_edges "/a/b") as [_ [_ H]]. exact H.
Defined.

End Paths.

Section EnterAndLeave.

Import Renderer.

Variable localeCompare : string -> string -> Z.
Variable toFixed1 : Z -> Z -> string.
Variable toLocaleString : string -> string.

(** From a current path that is not empty, after a double click on a
    directory whose name has no slash and whose listing the tool reports
    under the very path that was asked for, a click on up asks, with
    recording, for the path that was current before the double click. *)
Theorem up_after_enter (name : string) (listing : DirectoryListing) (p : Page) :
  currentPath (nav p) <> "" ->
  has_slash name = false ->
  path listing = child_of (currentPath (nav p)) name ->
  let entered :=
    Renderer.finish localeCompare toFixed1 toLocaleString
      (item_dblclick_listener name p) (Js.Resolved listing) in
  snd (item_dblclick_listener name p)
  = Some {| requested := Some (child_of (currentPath (nav p)) name);
            addToHistory := true |}
  /\ snd (btnUp_click entered)
     = Some {| requested := Some (currentPath (nav p)); addToHistory := true |}.
Proof.
  intros Hcur Hname Hpath entered. split; [reflexivity|].
  subst entered. unfold btnUp_click, Renderer.finish. simpl.
  rewrite Hpath, (parent_of_child_of _ _ Hcur Hname). reflexivity.
Qed.

End EnterAndLeave.

Lemma up_after_enter_witness :
  let p := Fixture.nav_at "/usr" ["/usr"] 0 in
  let entered :=
    Renderer.finish Fixture.code_unit_compare Fixture.toFixed1 (fun iso => iso)
      (Renderer.item_dblclick_listener "lib" p) (Fixture.listing "/usr/lib" []) in
  snd (Renderer.item_dblclick_listener "lib" p)
  = Some {| Renderer.requested := Some "/usr/lib"; Renderer.addToHistory := true |}
  /\ snd (Renderer.btnUp_click entered)
     = Some {| Renderer.requested := Some "/usr"; Renderer.addToHistory := true |}.
Proof.
  exact (up_after_enter Fixture.code_unit_compare Fixture.toFixed1 (fun iso => iso)
           "lib" {| Renderer.path := "/usr/lib"; Renderer.entries := [] |}
           (Fixture.nav_at "/usr" ["/usr"] 0) ltac:(discriminate) eq_refl eq_refl).
Defined.


(** * Further properties of the display *)

Section Rendering.

Import Renderer.

Variable localeCompare : string -> string -> Z.
Variable toFixed1 : Z -> Z -> string.
Variable toLocaleString : string -> string.

Local Abbreviation resume := (loadDirectory_resume localeCompare toFixed1 toLocaleString).

(** The three kinds have three different icons. *)
Theorem getIcon_distinct (t1 t2 : EntryType) : getIcon t1 = getIcon t2 -> t1 = t2.
Proof. destruct t1, t2; simpl; intros H; try reflexivity; discriminate. Qed.

Lemma getIcon_distinct_witness : file = file.
Proof. exact (getIcon_distinct file file eq_refl). Defined.

(** [localeCompare] is a consistent comparator. *)
Hypothesis localeCompare_total :
  forall a b, localeCompare a b <= 0 \/ localeCompare b a <= 0.
Hypothesis localeCompare_trans :
  forall a b c, localeCompare a b <= 0 -> localeCompare b c <= 0 ->
                localeCompare a c <= 0.

(** The display has two groups, not three: below the directories, files
    and symlinks are mixed and ordered by name alone, so a symlink stands
    above a file whenever its name compares lower. *)
Theorem files_and_symlinks_share_a_group (flag : bool) (listing : DirectoryListing)
    (p : Page) (i j : nat) (a b : FileEntry) :
  let shown := displayed (container (dom (resume flag (Js.Resolved listing) p))) in
  (i < j)%nat ->
  shown !! i = Some a ->
  shown !! j = Some b ->
  type a <> directory ->
  type b <> directory ->
  localeCompare (name a) (name b) <= 0.
Proof.
  intros shown Hij Ha Hb Hna Hnb. subst shown.
  rewrite resume_displays_sorted in Ha, Hb.
  assert (before (compareEntries localeCompare) a b) as Hab.
  { apply (sorted_lookup (before (compareEntries localeCompare))
             (sorted_entries localeCompare (entries listing)) i j a b); auto.
    apply sort_by_sorted;
      [ exact (compareEntries_total localeCompare localeCompare_total)
      | exact (compareEntries_trans localeCompare localeCompare_trans) ]. }
  unfold before, compareEntries, is_directory in Hab.
  destruct (type a), (type b); simpl in Hab; try exact Hab; contradiction.
Qed.

End Rendering.

Lemma files_and_symlinks_share_a_group_witness :
  Fixture.code_unit_compare "a.lnk" "b.txt" <= 0.
Proof.
  exact (files_and_symlinks_share_a_group Fixture.code_unit_compare Fixture.toFixed1
           (fun iso => iso) code_unit_compare_total code_unit_compare_trans true
           {| Renderer.path := "/d";
              Renderer.entries := [Fixture.entry "b.txt" Main.file;
                                   Fixture.entry "a.lnk" Main.symlink] |}
           Renderer.initial_page 0%nat 1%nat
           (Fixture.entry "a.lnk" Main.symlink) (Fixture.entry "b.txt" Main.file)
           ltac:(lia) eq_refl eq_refl ltac:(discriminate) ltac:(discriminate)).
Defined.


(** * The page after a failure *)

Section FailureDisplay.

Import Renderer.

Variable localeCompare : string -> string -> Z.
Variable toFixed1 : Z -> Z -> string.
Variable toLocaleString : string -> string.
Variable home : string.

(** After a listing that failed, the path display keeps showing the path
    that was asked for, although the current path is still the old one, and
    the back button is as it was before the operation, also when a failed
    step back has moved the cursor. *)
Theorem failed_operation_display (op : Operation) (err : Js.Error) (p : Page)
    (pending : Pending) :
  snd (start home op p) = Some pending ->
  let q := Renderer.run localeCompare toFixed1 toLocaleString home op
             (Js.Rejected err) p in
  pathDisplay (dom q) = requested pending
  /\ currentPath (nav q) = currentPath (nav p)
  /\ btnBack_disabled (dom q) = btnBack_disabled (dom p).
Proof.
  intros Hstart q. subst q. unfold Renderer.run, Renderer.finish.
  destruct op; simpl in Hstart |- *;
    try (injection Hstart as <-; repeat split; fail).
  unfold btnBack_click in Hstart |- *.
  destruct (0 <? historyIndex (nav p)); simpl in Hstart |- *; [|discriminate].
  injection Hstart as <-. repeat split.
Qed.

End FailureDisplay.

Lemma failed_operation_display_witness :
  let p := Fixture.nav_at "/b" ["/a"; "/b"] 1 in
  let q := Fixture.run Renderer.goBack (Fixture.failure "gone") p in
  Renderer.pathDisplay (Renderer.dom q) = Some "/a"
  /\ Renderer.currentPath (Renderer.nav q) = "/b"
  /\ Renderer.btnBack_disabled (Renderer.dom q) = false.
Proof.
  exact (failed_operation_display Fixture.code_unit_compare Fixture.toFixed1
           (fun iso => iso) "/home/u" Renderer.goBack (Js.mkError "gone")
           (Fixture.nav_at "/b" ["/a"; "/b"] 1)
           {| Renderer.requested := Some "/a"; Renderer.addToHistory := false |}
           eq_refl).
Defined.

(** * The executable *)

Section Executable.

Variable path_join : list string -> string.

(** In a packaged application both copies of the main process resolve the
    same executable, under the resources directory.  In development they
    part: the copy that passes [--json] leaves the lookup of a bare [xls] to
    the search path, on every platform, while the other takes the binary
    from the directory two levels above its own, with the platform's
    extension. *)
Theorem getXlsPath_of_the_copies (h : Main.Host) :
  (Main.isPackaged h = true ->
   MainLegacy.getXlsPath path_join h = Main.getXlsPath path_join h)
  /\ (Main.isPackaged h = false ->
      MainLegacy.getXlsPath path_join h = "xls"
      /\ Main.getXlsPath path_join h
         = path_join [Main.dirname h; "../../bin";
                      if String.eqb (Main.platform h) "win32" then "xls.exe" else "xls"]).
Proof.
  unfold MainLegacy.getXlsPath, Main.getXlsPath.
  split; intros ->; simpl; [reflexivity|].
  split; [reflexivity|]. destruct (String.eqb (Main.platform h) "win32"); reflexivity.
Qed.

End Executable.

Lemma getXlsPath_of_the_copies_witness :
  let join := fold_right (fun a b => a +:+ "/" +:+ b) "" in
  let h := {| Main.isPackaged := false; Main.platform := "win32";
              Main.dirname := "C:/app/dist/main"; Main.resourcesPath := "C:/app/res" |} in
  MainLegacy.getXlsPath join h = "xls"
  /\ Main.getXlsPath join h = join ["C:/app/dist/main"; "../../bin"; "xls.exe"].
Proof.
  intros join h.
  destruct (getXlsPath_of_the_copies join h) as [_ H]. exact (H eq_refl).
Defined.


(** * The renderer on run-time values *)

Section ThrowingSort.

Import Runtime.

Context {A E : Type}.
Variable cmp : A -> A -> E + Z.





End ThrowingSort.

Section RuntimeRenderer.

Import Runtime.

Variable localeCompare : string -> string -> Z.
Variable ToString : Js.Value -> string.
Variable toFixed1 : Z -> Z -> string.
Variable formatSize_other : Js.Value -> string.
Variable toLocaleString : Js.Value -> string.
Variable thrown : Js.Value -> string.
Variable home : string.

Local Abbreviation compare := (compareEntries localeCompare ToString).
Local Abbreviation sorted := (sorted_entries localeCompare ToString).
Local Abbreviation resume :=
  (loadDirectory_resume localeCompare ToString toFixed1 formatSize_other
     toLocaleString thrown).
Local Abbreviation run :=
  (Runtime.run localeCompare ToString toFixed1 formatSize_other toLocaleString
     thrown home).
Local Abbreviation run_all :=
  (Runtime.run_all localeCompare ToString toFixed1 formatSize_other toLocaleString
     thrown home).


(** What the comparator throws on is the name of one of the two entries,
    and not a string. *)
Lemma compare_culprit (a b : Entry) (culprit : Js.Value) :
  compare a b = inl culprit -> culprit = Main.name a /\ has_string_name a = false.
Proof.
  unfold has_string_name, compareEntries.
  destruct (is_directory a && negb (is_directory b)); [discriminate|].
  destruct (negb (is_directory a) && is_directory b); [discriminate|].
  destruct (Main.name a); intros [= <-]; split; reflexivity.
Qed.






(** *** The cursor stays in range *)








End RuntimeRenderer.






(** * The declared types as a case of the run-time values *)

Section DeclaredTypes.

Variable localeCompare : string -> string -> Z.
Variable ToString : Js.Value -> string.
Variable toFixed1 : Z -> Z -> string.
Variable formatSize_other : Js.Value -> string.
Variable toLocaleString : Js.Value -> string.
Variable toLocaleString_typed : string -> string.
Variable thrown : Js.Value -> string.
Variable home : string.

Lemma compare_of_entry (a b : Renderer.FileEntry) :
  Runtime.compareEntries localeCompare ToString (Runtime.of_entry a) (Runtime.of_entry b)
  = inr (Renderer.compareEntries localeCompare a b).
Proof.
  unfold Runtime.compareEntries, Renderer.compareEntries, Runtime.is_directory,
    Renderer.is_directory. simpl.
  destruct (Renderer.type a), (Renderer.type b); reflexivity.
Qed.

Lemma insert_of_entry (x : Renderer.FileEntry) (a : list Renderer.FileEntry) :
  Runtime.insert_by (Runtime.compareEntries localeCompare ToString)
    (Runtime.of_entry x) (map Runtime.of_entry a)
  = inr (map Runtime.of_entry
           (Renderer.insert_by (Renderer.compareEntries localeCompare) x a)).
Proof.
  induction a as [|y a IH]; [reflexivity|].
  simpl. rewrite compare_of_entry.
  destruct (Renderer.compareEntries localeCompare x y <=? 0); [reflexivity|].
  rewrite IH. reflexivity.
Qed.

(** On entries of the declared type the comparator never throws and the
    run-time sort is the sort of the typed reading. *)
Lemma sorted_of_entries (l : list Renderer.FileEntry) :
  Runtime.sorted_entries localeCompare ToString (map Runtime.of_entry l)
  = inr (map Runtime.of_entry (Renderer.sorted_entries localeCompare l)).
Proof.
  unfold Runtime.sorted_entries, Renderer.sorted_entries, Runtime.sort_by,
    Renderer.sort_by.
  induction l as [|x l IH]; [reflexivity|].
  simpl. rewrite IH. apply insert_of_entry.
Qed.

Lemma slice0_map {A B : Type} (f : A -> B) (stop : Z) (a : list A) :
  Renderer.slice0 stop (map f a) = map f (Renderer.slice0 stop a).
Proof.
  unfold Renderer.slice0. rewrite length_map.
  destruct (stop <? 0); apply firstn_map.
Qed.

Lemma record_history_of_nav (s : Renderer.NavigationState) :
  Runtime.record_history (Runtime.of_nav s)
  = Runtime.of_nav (Renderer.record_history s).
Proof.
  unfold Runtime.record_history, Renderer.record_history, Runtime.of_nav. simpl.
  rewrite slice0_map, map_app, !length_app, !length_map. reflexivity.
Qed.

(** On a listing of the declared types, and from a state that holds
    strings, every operation leaves in the run-time state what it leaves in
    the typed one. *)
Lemma run_of_declared (op : Renderer.Operation)
    (result : Js.Settled Renderer.DirectoryListing)
    (p : Renderer.Page) (P : Runtime.Page) :
  Runtime.nav P = Runtime.of_nav (Renderer.nav p) ->
  Runtime.nav (Runtime.run localeCompare ToString toFixed1 formatSize_other
                 toLocaleString thrown home op (Runtime.of_result result) P)
  = Runtime.of_nav
      (Renderer.nav (Renderer.run localeCompare toFixed1 toLocaleString_typed home
                       op result p)).
Proof.
  intros HP.
  assert (forall flag page Page,
             Runtime.nav Page = Runtime.of_nav (Renderer.nav page) ->
             Runtime.nav (Runtime.loadDirectory_resume localeCompare ToString toFixed1
                            formatSize_other toLocaleString thrown flag
                            (Runtime.of_result result) Page)
             = Runtime.of_nav
                 (Renderer.nav (Renderer.loadDirectory_resume localeCompare toFixed1
                                  toLocaleString_typed flag result page))) as Hresume.
  { intros flag page Page Hnav. destruct result as [listing|err]; [|exact Hnav].
    simpl. rewrite Hnav. destruct flag; [|reflexivity].
    exact (record_history_of_nav
             {| Renderer.currentPath := Renderer.path listing;
                Renderer.navigationHistory := Renderer.navigationHistory (Renderer.nav page);
                Renderer.historyIndex := Renderer.historyIndex (Renderer.nav page) |}). }
  unfold Runtime.run, Renderer.run, Runtime.finish, Renderer.finish.
  destruct op as [target| | | |]; simpl Runtime.start; simpl Renderer.start.
  - apply Hresume. exact HP.
  - unfold Runtime.btnBack_click, Renderer.btnBack_click. rewrite HP. simpl.
    destruct (0 <? Renderer.historyIndex (Renderer.nav p)); [|exact HP].
    apply Hresume. reflexivity.
  - unfold Runtime.btnUp_click, Renderer.btnUp_click. rewrite HP. simpl.
    apply Hresume. exact HP.
  - apply Hresume. exact HP.
  - apply Hresume. exact HP.
Qed.

End DeclaredTypes.
